(** * toolbin: a shallow embedding of [lambda302.py] and [letsrenew.py]

    The two scripts are embedded as Rocq functions.  Python values that
    travel through the code as JSON-like data are an inductive type
    [pyval]; a [dict] is an association list in insertion order (the
    order [json.dumps] prints), looked up by first match and updated in
    place.  Exceptions are values of [exn]; a computation ends in a
    returned value, a raised exception or a [SystemExit]. *)

From Stdlib Require Import ZArith List String Ascii Bool Lia.
From Stdlib Require Import DecimalString.
Import ListNotations.
Open Scope string_scope.
Open Scope Z_scope.

(** ** Python values and exceptions *)

#[warnings="-register-all"] Inductive pyval : Type :=
| PNone
| PInt (z : Z)
| PStr (s : string)
| PList (l : list pyval)
| PDict (d : list (string * pyval)).

Definition dict := list (string * pyval).

(** The exception classes the two scripts can meet.  [KeyboardInterrupt]
    stands for the [BaseException]s that [except Exception] lets pass;
    [SyntaxError] is what Python raises for a file it cannot compile. *)
Inductive exn : Type :=
| SyntaxError
| KeyError (key : string)
| IndexError
| TypeError
| AttributeError
| ValueError
| OSError (msg : string)
| SocketTimeout
| RequestException (msg : string)
| ClientError (code : string)
| KeyboardInterrupt.

(** [isinstance(e, Exception)] *)
Definition is_Exception (e : exn) : bool :=
  match e with
  | KeyboardInterrupt => false
  | _ => true
  end.

(** [isinstance(e, requests.RequestException)] *)
Definition is_RequestException (e : exn) : bool :=
  match e with
  | RequestException _ => true
  | _ => false
  end.

(** [str(e)], the text [print(e)] writes. *)
Definition str_exn (e : exn) : string :=
  match e with
  | SyntaxError => "invalid syntax"
  | KeyError k => "'" ++ k ++ "'"
  | IndexError => "list index out of range"
  | TypeError => "TypeError"
  | AttributeError => "AttributeError"
  | ValueError => "ValueError"
  | OSError m => m
  | SocketTimeout => "timed out"
  | RequestException m => m
  | ClientError c => c
  | KeyboardInterrupt => ""
  end.

(** How a pure Python expression ends. *)
Inductive result (A : Type) : Type :=
| Ok (a : A)
| Err (e : exn).
Arguments Ok {A} a.
Arguments Err {A} e.

Definition rbind {A B} (r : result A) (k : A -> result B) : result B :=
  match r with
  | Ok a => k a
  | Err e => Err e
  end.

(** ** Dictionaries, subscripts and [str.split] *)

Fixpoint dict_get (d : dict) (k : string) : option pyval :=
  match d with
  | [] => None
  | (k', v) :: r => if String.eqb k' k then Some v else dict_get r k
  end.

(** [d[k] = v]: replaces the value of an existing key where it stands,
    appends a new key. *)
Fixpoint dict_set (d : dict) (k : string) (v : pyval) : dict :=
  match d with
  | [] => [(k, v)]
  | (k', v') :: r =>
      if String.eqb k' k then (k', v) :: r else (k', v') :: dict_set r k v
  end.

(** [v[k]] with a string key: only a dict accepts it. *)
Definition getitem (v : pyval) (k : string) : result pyval :=
  match v with
  | PDict d =>
      match dict_get d k with
      | Some x => Ok x
      | None => Err (KeyError k)
      end
  | _ => Err TypeError
  end.

(** [s.split(sep)] for a separator of one character. *)
Fixpoint split (sep : ascii) (s : string) : list string :=
  match s with
  | EmptyString => [EmptyString]
  | String c r =>
      if Ascii.eqb c sep then EmptyString :: split sep r
      else match split sep r with
           | [] => [String c EmptyString]
           | h :: t => String c h :: t
           end
  end.

(** Whether [c] occurs in [s]. *)
Fixpoint has_char (c : ascii) (s : string) : bool :=
  match s with
  | EmptyString => false
  | String a r => Ascii.eqb a c || has_char c r
  end.

(** [v.split('.')]: a method of [str] only. *)
Definition split_method (v : pyval) (sep : ascii) : result (list string) :=
  match v with
  | PStr s => Ok (split sep s)
  | _ => Err AttributeError
  end.

(** [l[0]] *)
Definition index0 {A} (l : list A) : result A :=
  match l with
  | [] => Err IndexError
  | x :: _ => Ok x
  end.

(** ** [json.dumps] on the values above (default separators; text that
    needs no escape beyond the quote and the backslash). *)

Definition dq : string := String (ascii_of_nat 34) EmptyString.
Definition bs : string := String (ascii_of_nat 92) EmptyString.

Fixpoint json_escape (s : string) : string :=
  match s with
  | EmptyString => EmptyString
  | String c r =>
      if Ascii.eqb c (ascii_of_nat 34) then bs ++ dq ++ json_escape r
      else if Ascii.eqb c (ascii_of_nat 92) then bs ++ bs ++ json_escape r
      else String c (json_escape r)
  end.

Definition json_quote (s : string) : string := dq ++ json_escape s ++ dq.

Definition str_Z (z : Z) : string := NilEmpty.string_of_int (Z.to_int z).

Fixpoint json_dumps (v : pyval) : string :=
  match v with
  | PNone => "null"
  | PInt z => str_Z z
  | PStr s => json_quote s
  | PList l =>
      "[" ++ (fix elems (l : list pyval) : string :=
                match l with
                | [] => ""
                | [x] => json_dumps x
                | x :: r => json_dumps x ++ ", " ++ elems r
                end) l ++ "]"
  | PDict d =>
      "{" ++ (fix items (d : list (string * pyval)) : string :=
                match d with
                | [] => ""
                | [(k, x)] => json_quote k ++ ": " ++ json_dumps x
                | (k, x) :: r => json_quote k ++ ": " ++ json_dumps x ++ ", " ++ items r
                end) d ++ "}"
  end.

(** ** [lambda302.py] *)

Module Lambda302.

Definition bucket : string := "my-bucket-name".

Definition lambda_handler (event context : pyval) : result pyval :=
  rbind (getitem event "headers") (fun headers =>
  rbind (getitem headers "Host") (fun host =>
  rbind (split_method host ".") (fun parts =>
  rbind (index0 parts) (fun resource =>
  let response : dict :=
    [ ("statusCode", PInt 302);
      ("headers",
        PDict [("Location",
                PStr ("https://" ++ bucket ++ ".s3.amazonaws.com/" ++ resource))]) ] in
  let data : pyval := PDict [] in
  let response := dict_set response "body" (PStr (json_dumps data)) in
  Ok (PDict response))))).

(** The event of a request for host [h], reduced to what the handler reads. *)
Definition host_event (h : string) : pyval :=
  PDict [("headers", PDict [("Host", PStr h)])].

End Lambda302.


(** ** [letsrenew.py]: configuration *)

Module Letsrenew.

Definition nl : string := String (ascii_of_nat 10) EmptyString.

Definition domain : string := "mydomain.tld".

Definition threshold : Z := 5 * 24 * 60 * 60.

Definition pre_command : string :=
  nl ++ "    echo " ++ dq ++ "pre command" ++ dq ++ nl ++ "  ".

Definition post_command : string :=
  nl ++ "    echo " ++ dq ++ "post command" ++ dq ++ nl ++ "  ".

Record ip_range : Type := { CidrIp : string; Description : string }.

Record ip_permission : Type :=
  { FromPort : Z; ToPort : Z; IpProtocol : string; IpRanges : list ip_range }.

Definition temp_rule : list ip_permission :=
  [ {| FromPort := 80;
       ToPort := 80;
       IpProtocol := "tcp";
       IpRanges := [ {| CidrIp := "0.0.0.0/0";
                        Description := "temp-letsrenew-rule" |} ] |} ].

(** The command text of lines 212-215, an f-string over [domain].  The
    call that receives it lacks its closing parenthesis in the source;
    the model reads lines 212-218 the way they are laid out, as the
    call [run_cmd(...)] followed by the statement of line 218. *)
Definition renewal_command (domain : string) : string :=
  nl ++ "            certbot -d " ++ domain ++ " --standalone certonly" ++
  nl ++ "            #certbot-auto -d " ++ domain ++ " --standalone certonly" ++
  nl ++ "        ".

Definition identity_document_url : string :=
  "http://169.254.169.254/latest/dynamic/instance-identity/document".

Definition security_groups_url : string :=
  "http://169.254.169.254/latest/meta-data/security-groups".

Definition ssl_date_fmt : string := "%b %d %H:%M:%S %Y %Z".

(** ** The world outside the script *)

(** A security group of the account, as the EC2 API describes it. *)
Record security_group : Type :=
  { GroupId : string; GroupName : string; IpPermissions : list ip_permission }.

Definition cloud : Type := list security_group.

(** What [boto3.client] hands out: clients are told apart by a number. *)
Record client : Type := { client_id : nat }.

(** A [requests.Response]: its [text], and what [json()] gives. *)
Record response : Type := { text : string; json : result pyval }.

(** Every call that leaves the process is recorded with its arguments
    and with what it gave back.  [EAuthorizeIngress c g p r] and
    [ERevokeIngress c g p r] record the two lines of
    [add_rule_to_security_group] and [remove_rule_from_security_group]
    together: the handle [sg = c.SecurityGroup(g)] and the call
    [sg.authorize_ingress(IpPermissions=p)] (or [sg.revoke_ingress]);
    [r] is the exception that ended them, raised by either line, or
    [None] when the API call returned. *)
Inductive event : Type :=
| EWrapSocket (hostname : string) (r : option exn)
| EConnect (hostname : string) (port : Z) (r : option exn)
| EGetPeerCert
| EClose
| EPrint (s : string)
| EPopen (cmd : string) (r : result string)
| ERequestsGet (url : string) (r : result response)
| ERequestsPost (url : string) (r : result response)
| EBotoClient (service : string) (r : result client)
| EDescribeSecurityGroups (c : client) (name : string)
    (r : result (list security_group))
| EAuthorizeIngress (c : client) (group : string)
    (perms : list ip_permission) (r : option exn)
| ERevokeIngress (c : client) (group : string)
    (perms : list ip_permission) (r : option exn).

Record world : Type := { trace : list event; sgs : cloud }.

(** The behaviour of everything the script calls but does not define:
    the TLS peer, the clock, the shell, the metadata service and the
    EC2 API.  Each answer may depend on the world so far.
    [SecurityGroup w c g] is [None] when [c.SecurityGroup(g)] gives a
    handle and the exception it raises otherwise; the two API calls
    give their exception, if any, and the security groups they leave. *)
Record env : Type :=
  { wrap_socket : world -> string -> option exn;
    connect : world -> string -> Z -> option exn;
    getpeercert : world -> pyval;
    strptime : string -> string -> result Z;
    utcnow : world -> Z;
    popen_read : world -> string -> result string;
    requests_get : world -> string -> pyval -> pyval -> result response;
    requests_post : world -> string -> pyval -> pyval -> result response;
    boto3_client : world -> string -> result client;
    describe_security_groups :
      world -> client -> string -> result (list security_group);
    SecurityGroup : world -> client -> string -> option exn;
    authorize_ingress :
      world -> client -> string -> list ip_permission -> option exn * cloud;
    revoke_ingress :
      world -> client -> string -> list ip_permission -> option exn * cloud }.

(** ** Computations: world passing, exceptions and [sys.exit] *)

Inductive outcome (A : Type) : Type :=
| Ret (a : A)
| Raise (e : exn)
| Exit (arg : option exn).
Arguments Ret {A} a.
Arguments Raise {A} e.
Arguments Exit {A} arg.

Definition M (A : Type) : Type := world -> outcome A * world.

Definition ret {A} (a : A) : M A := fun w => (Ret a, w).

Definition bind {A B} (m : M A) (k : A -> M B) : M B :=
  fun w =>
    match m w with
    | (Ret a, w') => k a w'
    | (Raise e, w') => (Raise e, w')
    | (Exit arg, w') => (Exit arg, w')
    end.

Definition raise {A} (e : exn) : M A := fun w => (Raise e, w).

(** [sys.exit(arg)] *)
Definition sys_exit {A} (arg : option exn) : M A := fun w => (Exit arg, w).

Definition emit (e : event) : M unit :=
  fun w => (Ret tt, {| trace := trace w ++ [e]; sgs := sgs w |}).

Definition lift {A} (r : result A) : M A :=
  match r with
  | Ok a => ret a
  | Err e => raise e
  end.

(** [try: body / except <class> as e: handler e] *)
Definition try_except {A} (body : M A) (catches : exn -> bool)
    (handler : exn -> M A) : M A :=
  fun w =>
    match body w with
    | (Raise e, w') => if catches e then handler e w' else (Raise e, w')
    | r => r
    end.

(** The status the caller of the process sees (a shell, Python 3.8 or
    later).  An uncaught exception of class [Exception] ends the
    process with status 1 after the traceback.  An uncaught
    [KeyboardInterrupt] ends it by the signal SIGINT, which a shell
    reports as 128 + 2.  [sys.exit()] gives 0, and [sys.exit(e)] with
    an exception object prints it and gives 1. *)
Definition exit_status {A} (o : outcome A) : Z :=
  match o with
  | Ret _ => 0
  | Raise e => if is_Exception e then 1 else 130
  | Exit None => 0
  | Exit (Some _) => 1
  end.

Declare Scope py_scope.
Delimit Scope py_scope with py.
Notation "x <- m ;; k" := (bind m (fun x => k))
  (at level 61, m at next level, right associativity) : py_scope.
Notation "m ;;; k" := (bind m (fun _ => k))
  (at level 61, right associativity) : py_scope.
Open Scope py_scope.

Definition log (w : world) (e : event) : world :=
  {| trace := trace w ++ [e]; sgs := sgs w |}.

(** A call that answers with a value or an exception. *)
Definition call {A} (f : world -> result A) (ev : result A -> event) : M A :=
  fun w =>
    let r := f w in
    match r with
    | Ok a => (Ret a, log w (ev r))
    | Err e => (Raise e, log w (ev r))
    end.

(** A call that answers with nothing or an exception. *)
Definition call_unit (f : world -> option exn) (ev : option exn -> event) : M unit :=
  fun w =>
    let r := f w in
    match r with
    | None => (Ret tt, log w (ev r))
    | Some e => (Raise e, log w (ev r))
    end.

(** A call to the EC2 API that may change the security groups. *)
Definition call_cloud (f : world -> option exn * cloud)
    (ev : option exn -> event) : M unit :=
  fun w =>
    let '(r, c) := f w in
    let w' := {| trace := trace w ++ [ev r]; sgs := c |} in
    match r with
    | None => (Ret tt, w')
    | Some e => (Raise e, w')
    end.

Definition print (s : string) : M unit := emit (EPrint s).

(** ** Strings: [str.lower] and [str.rstrip] on ASCII text *)

Definition lower_ascii (c : ascii) : ascii :=
  let n := nat_of_ascii c in
  if (Nat.leb 65 n && Nat.leb n 90)%bool then ascii_of_nat (n + 32) else c.

Fixpoint lower (s : string) : string :=
  match s with
  | EmptyString => EmptyString
  | String c r => String (lower_ascii c) (lower r)
  end.

Definition is_space (c : ascii) : bool :=
  let n := nat_of_ascii c in
  ((Nat.leb 9 n && Nat.leb n 13) || (Nat.leb 28 n && Nat.leb n 32))%bool.

Fixpoint rstrip (s : string) : string :=
  match s with
  | EmptyString => EmptyString
  | String c r =>
      match rstrip r with
      | EmptyString => if is_space c then EmptyString else String c EmptyString
      | r' => String c r'
      end
  end.

(** ** The functions of the script *)

Section Script.

Variable E : env.

(** [request]: the two [l.debug] lines print nothing at level INFO.
    A method that is neither post nor get falls off the end of the
    function, which returns [None]. *)
Definition request (method_type url : string) (headers : pyval)
    (args : list pyval) : M (option response) :=
  let method_type := lower method_type in
  try_except
    (if String.eqb method_type "post" then
       data <- lift (index0 args) ;;
       r <- call (fun w => requests_post E w url headers data) (ERequestsPost url) ;;
       ret (Some r)
     else if String.eqb method_type "get" then
       data <- lift (index0 args) ;;
       r <- call (fun w => requests_get E w url headers data) (ERequestsGet url) ;;
       ret (Some r)
     else ret None)
    is_RequestException
    (fun e => sys_exit (Some e)).

Definition run_cmd (cmd : string) : M string :=
  out <- call (fun w => popen_read E w cmd) (EPopen cmd) ;;
  ret (rstrip out).

(** [ssl_expiration]: times are microseconds as integers; [int()] of
    [total_seconds()] rounds towards zero.  [total_seconds()] is a
    float: the division below is the code's as long as the float holds
    the seconds to the microsecond, which it does for any span below
    2^30 seconds (34 years), and can be one off from about 2^33
    seconds on. *)
Definition ssl_expiration (hostname : string) : M (Z * Z * Z) :=
  call_unit (fun w => wrap_socket E w hostname) (EWrapSocket hostname) ;;;
  try_except
    (call_unit (fun w => connect E w hostname 443) (EConnect hostname 443))
    is_Exception
    (fun e => print (str_exn e) ;;; sys_exit None) ;;;
  ssl_info <- (fun w => (Ret (getpeercert E w), log w EGetPeerCert)) ;;
  emit EClose ;;;
  notAfter <- lift (getitem ssl_info "notAfter") ;;
  expiration <- lift (match notAfter with
                      | PStr s => strptime E s ssl_date_fmt
                      | _ => Err TypeError
                      end) ;;
  now <- (fun w => (Ret (utcnow E w), w)) ;;
  let remaining := expiration - now in
  let seconds_rem := Z.quot remaining 1000000 in
  ret (expiration, remaining, seconds_rem).

(** [get_security_group_by_name]: the parameter [ec2] is assigned
    anew on the first line. *)
Definition get_security_group_by_name (ec2 : client) (name : string) : M string :=
  ec2 <- call (fun w => boto3_client E w "ec2") (EBotoClient "ec2") ;;
  resp <- call (fun w => describe_security_groups E w ec2 name)
               (EDescribeSecurityGroups ec2 name) ;;
  g <- lift (index0 resp) ;;
  ret (GroupId g).

(** [add_rule_to_security_group]: line 174 builds the handle, line
    175 calls the API through it.  When line 174 raises, the API is
    not called and the security groups stay as they are. *)
Definition add_rule_to_security_group (ec2 : client) (security_group : string)
    : M unit :=
  fun w =>
    match SecurityGroup E w ec2 security_group with
    | Some e =>
        (Raise e, log w (EAuthorizeIngress ec2 security_group temp_rule (Some e)))
    | None =>
        call_cloud (fun w => authorize_ingress E w ec2 security_group temp_rule)
                   (EAuthorizeIngress ec2 security_group temp_rule) w
    end.

(** [remove_rule_from_security_group]: lines 179 and 180, the same
    with [revoke_ingress]. *)
Definition remove_rule_from_security_group (ec2 : client) (security_group : string)
    : M unit :=
  fun w =>
    match SecurityGroup E w ec2 security_group with
    | Some e =>
        (Raise e, log w (ERevokeIngress ec2 security_group temp_rule (Some e)))
    | None =>
        call_cloud (fun w => revoke_ingress E w ec2 security_group temp_rule)
                   (ERevokeIngress ec2 security_group temp_rule) w
    end.

Inductive decision : Type := Renew | Skip.

(** The test of line 191. *)
Definition Decide (seconds_left threshold : Z) : decision :=
  if seconds_left <? threshold then Renew else Skip.

(** A method or attribute of the value [request] returned. *)
Definition attr {A} (resp : option response) (f : response -> A) : M A :=
  match resp with
  | Some r => ret (f r)
  | None => raise AttributeError
  end.

(** Lines 192-225, the block under the test of line 191: the
    renewal with its exposure window. *)
Definition execute_renewal : M unit :=
  print "Running pre-command" ;;;
  out <- run_cmd pre_command ;;
  print out ;;;
  resp <- request "get" identity_document_url (PDict []) [PDict []] ;;
  doc <- attr resp json ;;
  doc <- lift doc ;;
  region <- lift (getitem doc "region") ;;
  ec2 <- call (fun w => boto3_client E w "ec2") (EBotoClient "ec2") ;;
  resp <- request "get" security_groups_url (PDict []) [PDict []] ;;
  name <- attr resp text ;;
  security_group <- get_security_group_by_name ec2 name ;;
  add_rule_to_security_group ec2 security_group ;;;
  out <- run_cmd (renewal_command domain) ;;
  remove_rule_from_security_group ec2 security_group ;;;
  print "Running post-command" ;;;
  out <- run_cmd pre_command ;;
  print out.

(** The block under [if __name__ == "__main__"]. *)
Definition main (argv : list string) : M unit :=
  hostname <- lift (match nth_error argv 1 with
                    | Some a => Ok a
                    | None => Err IndexError
                    end) ;;
  r <- ssl_expiration hostname ;;
  let '(_, _, seconds_left) := r in
  match Decide seconds_left threshold with
  | Renew => execute_renewal
  | Skip => ret tt
  end.

End Script.

(** The world a process starts in: nothing done yet. *)
Definition start (c : cloud) : world := {| trace := []; sgs := c |}.

(** The process: [main] from the start.  This is a run of the block
    as it is laid out; [shipped] below is the file as it stands. *)
Definition run (E : env) (c : cloud) (argv : list string) : outcome unit * world :=
  main E argv (start c).

(** ** The file as it stands

    Lines 188 to 225 of [letsrenew.py], the block under
    [if __name__ == "__main__"], one string a line.  The lines before
    it are the imports, the configuration and the function definitions,
    each a complete statement; the file ends with line 225. *)
Definition main_block_lines : list string :=
  [
    "if __name__ == " ++ dq ++ "__main__" ++ dq ++ ":";
    "    _, _, seconds_left = ssl_expiration(sys.argv[1])";
    "    # if we are under our threshold for time remaining on cert run our renewal";
    "    if seconds_left < threshold:";
    "        # execute the pre-command";
    "        print('Running pre-command')";
    "        out = run_cmd(pre_command)";
    "        print(out)";
    EmptyString;
    "        # get the region of the ec2 instance we are running on";
    "        resp = request('get', 'http://169.254.169.254/latest/dynamic/instance-identity/document', {}, {})";
    "        region = resp.json()['region']";
    EmptyString;
    "        # initialialize boto3";
    "        ec2 = boto3.client('ec2')";
    EmptyString;
    "        # get the security groups attached to this node";
    "        resp = request('get', 'http://169.254.169.254/latest/meta-data/security-groups', {}, {})";
    "        security_group = get_security_group_by_name(ec2, resp.text)";
    EmptyString;
    "        # temporarily open up the security group port 80 to the world, tag rule to easily identify";
    "        add_rule_to_security_group(ec2, security_group)";
    EmptyString;
    "        # perform certificate renewal for the domain";
    "        out = run_cmd(f" ++ dq ++ dq ++ dq;
    "            certbot -d {domain} --standalone certonly";
    "            #certbot-auto -d {domain} --standalone certonly";
    "        " ++ dq ++ dq ++ dq;
    EmptyString;
    "        # delete out the temoprary security group rule using the tag to identify";
    "        remove_rule_from_security_group(ec2, security_group)";
    EmptyString;
    "        # TODO: parse renewal output for location of new certificates";
    EmptyString;
    "        # execute the post command";
    "        print('Running post-command')";
    "        out = run_cmd(pre_command)";
    "        print(out)" ].

Definition main_block_text : string := String.concat nl main_block_lines.

(** Where a reading of Python text stands: in code, in a comment, or
    in a string literal opened by [quote], [long] when it was opened
    by three of them. *)
Inductive lexer_mode : Type :=
| InCode
| InComment
| InString (quote : ascii) (long : bool).

Definition is_quote (ch : ascii) : bool :=
  (Ascii.eqb ch (ascii_of_nat 34) || Ascii.eqb ch (ascii_of_nat 39))%bool.

Definition is_opening (ch : ascii) : bool :=
  (Ascii.eqb ch "("%char || Ascii.eqb ch "["%char || Ascii.eqb ch "{"%char)%bool.

Definition is_closing (ch : ascii) : bool :=
  (Ascii.eqb ch ")"%char || Ascii.eqb ch "]"%char || Ascii.eqb ch "}"%char)%bool.

(** Whether [s] begins with two characters [q]. *)
Definition two_more (q : ascii) (s : string) : bool :=
  match s with
  | String a (String b _) => (Ascii.eqb a q && Ascii.eqb b q)%bool
  | _ => false
  end.

(** [open_brackets s m depth skip] reads [s] from mode [m] with
    [depth] brackets open, passing over the next [skip] characters,
    and gives the mode and the number of open brackets at the end of
    [s].  Brackets count in code only; a comment runs to the end of its
    line; in a string a backslash takes the next character with it. *)
Fixpoint open_brackets (s : string) (m : lexer_mode) (depth skip : nat)
    : lexer_mode * nat :=
  match s with
  | EmptyString => (m, depth)
  | String ch r =>
      match skip with
      | S k => open_brackets r m depth k
      | O =>
          match m with
          | InComment =>
              if Ascii.eqb ch (ascii_of_nat 10) then open_brackets r InCode depth 0
              else open_brackets r InComment depth 0
          | InString q long =>
              if Ascii.eqb ch (ascii_of_nat 92) then open_brackets r m depth 1
              else if Ascii.eqb ch q then
                if long then
                  if two_more q r then open_brackets r InCode depth 2
                  else open_brackets r m depth 0
                else open_brackets r InCode depth 0
              else open_brackets r m depth 0
          | InCode =>
              if Ascii.eqb ch "#"%char then open_brackets r InComment depth 0
              else if is_quote ch then
                if two_more ch r then open_brackets r (InString ch true) depth 2
                else open_brackets r (InString ch false) depth 0
              else if is_opening ch then open_brackets r InCode (S depth) 0
              else if is_closing ch then open_brackets r InCode (Nat.pred depth) 0
              else open_brackets r InCode depth 0
          end
      end
  end.

(** Python compiles a file whole before it runs a line of it, and
    refuses with [SyntaxError] a text that ends inside a bracket or
    inside a long string. *)
Definition brackets_closed (src : string) : bool :=
  match open_brackets src InCode 0 0 with
  | (InString _ true, _) => false
  | (_, O) => true
  | (_, S _) => false
  end.


(** Line 215 with the parenthesis that closes the call of line 212. *)
Definition closed_block_text : string :=
  String.concat nl
    (firstn 27 main_block_lines ++
     [("        " ++ dq ++ dq ++ dq ++ ")")%string] ++
     skipn 28 main_block_lines)%list.

(** ** Reading a trace *)

(** What [ssl_expiration] can leave in a trace. *)
Definition is_tls (ev : event) : bool :=
  match ev with
  | EWrapSocket _ _ | EConnect _ _ _ | EGetPeerCert | EClose | EPrint _ => true
  | _ => false
  end.

(** Calls to the EC2 side: client construction, the describe call and
    the calls of the two rule functions. *)
Definition is_cloud_call (ev : event) : bool :=
  match ev with
  | EBotoClient _ _ | EDescribeSecurityGroups _ _ _
  | EAuthorizeIngress _ _ _ _ | ERevokeIngress _ _ _ _ => true
  | _ => false
  end.

Definition is_revoke (ev : event) : bool :=
  match ev with
  | ERevokeIngress _ _ _ _ => true
  | _ => false
  end.

Definition count (f : event -> bool) (tr : list event) : nat :=
  List.length (filter f tr).

(** The three steps of the exposure window, as they show in a trace:
    adding the rule (and whether the add returned, the rule accepted),
    the renewal tool, removing the rule. *)
Inductive step : Type := AddRule (accepted : bool) | RenewalTool | RemoveRule.

Definition step_of (ev : event) : option step :=
  match ev with
  | EAuthorizeIngress _ _ _ None => Some (AddRule true)
  | EAuthorizeIngress _ _ _ (Some _) => Some (AddRule false)
  | EPopen cmd _ =>
      if String.eqb cmd (renewal_command domain) then Some RenewalTool else None
  | ERevokeIngress _ _ _ _ => Some RemoveRule
  | _ => None
  end.

Fixpoint window (tr : list event) : list step :=
  match tr with
  | [] => []
  | ev :: r =>
      match step_of ev with
      | Some s => s :: window r
      | None => window r
      end
  end.

(** The calls of [add_rule_to_security_group] and
    [remove_rule_from_security_group], in order, with what each asks
    of the security groups. *)
Inductive mutation : Type :=
| Authorize (c : client) (group : string) (perms : list ip_permission)
| Revoke (c : client) (group : string) (perms : list ip_permission).

Fixpoint mutations (tr : list event) : list mutation :=
  match tr with
  | [] => []
  | EAuthorizeIngress c g p _ :: r => Authorize c g p :: mutations r
  | ERevokeIngress c g p _ :: r => Revoke c g p :: mutations r
  | _ :: r => mutations r
  end.

(** The commands handed to the shell, in order. *)
Fixpoint commands (tr : list event) : list string :=
  match tr with
  | [] => []
  | EPopen cmd _ :: r => cmd :: commands r
  | _ :: r => commands r
  end.

(** ** A concrete world for examples

    The EC2 API answers as documented: authorising a rule the group
    already has is refused with [InvalidPermission.Duplicate], revoking
    one it does not have with [InvalidPermission.NotFound]. *)

Fixpoint list_eqb {A} (eqb : A -> A -> bool) (l1 l2 : list A) : bool :=
  match l1, l2 with
  | [], [] => true
  | a :: r1, b :: r2 => eqb a b && list_eqb eqb r1 r2
  | _, _ => false
  end.

Definition ip_range_eqb (a b : ip_range) : bool :=
  String.eqb (CidrIp a) (CidrIp b) && String.eqb (Description a) (Description b).

Definition ip_permission_eqb (a b : ip_permission) : bool :=
  Z.eqb (FromPort a) (FromPort b) && Z.eqb (ToPort a) (ToPort b) &&
  String.eqb (IpProtocol a) (IpProtocol b) &&
  list_eqb ip_range_eqb (IpRanges a) (IpRanges b).

Definition has_rule (p : ip_permission) (rules : list ip_permission) : bool :=
  existsb (ip_permission_eqb p) rules.

Definition group_rules (c : cloud) (group : string) : option (list ip_permission) :=
  match find (fun g => String.eqb (GroupId g) group) c with
  | Some g => Some (IpPermissions g)
  | None => None
  end.

Definition set_rules (c : cloud) (group : string) (rules : list ip_permission) : cloud :=
  map (fun g => if String.eqb (GroupId g) group
                then {| GroupId := GroupId g; GroupName := GroupName g;
                        IpPermissions := rules |}
                else g) c.

Definition ec2_authorize (c : cloud) (group : string) (perms : list ip_permission)
    : option exn * cloud :=
  match group_rules c group with
  | None => (Some (ClientError "InvalidGroup.NotFound"), c)
  | Some rules =>
      if existsb (fun p => has_rule p rules) perms
      then (Some (ClientError "InvalidPermission.Duplicate"), c)
      else (None, set_rules c group (rules ++ perms))
  end.

Definition ec2_revoke (c : cloud) (group : string) (perms : list ip_permission)
    : option exn * cloud :=
  match group_rules c group with
  | None => (Some (ClientError "InvalidGroup.NotFound"), c)
  | Some rules =>
      if forallb (fun p => has_rule p rules) perms
      then (None, set_rules c group
                    (filter (fun r => negb (has_rule r perms)) rules))
      else (Some (ClientError "InvalidPermission.NotFound"), c)
  end.

(** What varies between the examples. *)
Record scenario : Type :=
  { sc_connect : option exn;        (* what [conn.connect] does *)
    sc_seconds_left : Z;            (* validity left on the certificate *)
    sc_renewal : result string;     (* what reading certbot's output gives *)
    sc_revoke_fails : bool }.       (* the API refuses every revoke *)

Definition sample_now : Z := 1700000000 * 1000000.

Definition sample_env (sc : scenario) : env :=
  {| wrap_socket := fun _ _ => None;
     connect := fun _ _ _ => sc_connect sc;
     getpeercert := fun _ => PDict [("notAfter", PStr "Jan  1 00:00:00 2030 GMT")];
     strptime := fun _ _ => Ok (sample_now + sc_seconds_left sc * 1000000);
     utcnow := fun _ => sample_now;
     popen_read := fun _ cmd =>
       if String.eqb cmd (renewal_command domain) then sc_renewal sc
       else Ok ("done" ++ nl);
     requests_get := fun _ url _ _ =>
       if String.eqb url identity_document_url
       then Ok {| text := "{}";
                  json := Ok (PDict [("region", PStr "us-east-1")]) |}
       else Ok {| text := "web"; json := Err ValueError |};
     requests_post := fun _ _ _ _ => Err (RequestException "unused");
     boto3_client := fun w _ =>
       Ok {| client_id := count (fun ev => match ev with
                                           | EBotoClient _ _ => true
                                           | _ => false
                                           end) (trace w) |};
     describe_security_groups := fun w _ name =>
       Ok (filter (fun g => String.eqb (GroupName g) name) (sgs w));
     SecurityGroup := fun _ _ _ => None;
     authorize_ingress := fun w _ group perms => ec2_authorize (sgs w) group perms;
     revoke_ingress := fun w _ group perms =>
       if sc_revoke_fails sc then (Some (ClientError "RequestLimitExceeded"), sgs w)
       else ec2_revoke (sgs w) group perms |}.

Definition web_group (rules : list ip_permission) : security_group :=
  {| GroupId := "sg-0a1b"; GroupName := "web"; IpPermissions := rules |}.

Definition https_rule : ip_permission :=
  {| FromPort := 443; ToPort := 443; IpProtocol := "tcp";
     IpRanges := [ {| CidrIp := "0.0.0.0/0"; Description := "https" |} ] |}.

Definition sample_cloud : cloud := [web_group [https_rule]].

(** The group as a crashed earlier run would leave it. *)
Definition stale_cloud : cloud := [web_group (https_rule :: temp_rule)].

Definition three_days : Z := 3 * 24 * 60 * 60.
Definition thirty_days : Z := 30 * 24 * 60 * 60.

Definition due (renewal : result string) : scenario :=
  {| sc_connect := None; sc_seconds_left := three_days;
     sc_renewal := renewal; sc_revoke_fails := false |}.

Definition argv0 : list string := ["letsrenew.py"; "mydomain.tld"].

(** Certificate due, certbot's output read. *)
Definition renewed_env : env := sample_env (due (Ok ("Congratulations!" ++ nl))).


(** Certificate due, the API refuses the revoke. *)
Definition stuck_env : env :=
  sample_env {| sc_connect := None; sc_seconds_left := three_days;
                sc_renewal := Ok ""; sc_revoke_fails := true |}.

(** Certificate good for thirty days. *)
Definition fresh_env : env :=
  sample_env {| sc_connect := None; sc_seconds_left := thirty_days;
                sc_renewal := Ok ""; sc_revoke_fails := false |}.


Definition ec2_0 : client := {| client_id := 0 |}.

End Letsrenew.

Import Letsrenew.

(** ** Proof steps over the script *)

(** Destructs the next answer of the outside world in the goal. *)
Ltac next_answer :=
  match goal with
  | |- context [match ?x with _ => _ end] =>
      lazymatch x with
      | context [match _ with _ => _ end] => fail
      | _ => destruct x eqn:?
      end
  end.

Ltac unfold_script :=
  unfold execute_renewal, ssl_expiration, get_security_group_by_name,
    add_rule_to_security_group, remove_rule_from_security_group, run_cmd,
    request, attr, print, emit, call, call_unit, call_cloud, try_except,
    lift, bind, ret, raise, sys_exit, index0, log.

(** Puts the world the block ends in as [trace w ++ evs] for explicit [evs]. *)
Ltac block_leaf :=
  simpl; rewrite <- ?app_assoc; simpl; eexists; (split; [reflexivity|]).


(** ** Further reading of strings and traces *)

(** Whether every character of [s] is ASCII (below 128).  On such
    text [rstrip] is [str.rstrip]; beyond it Python knows further
    whitespace characters that [is_space] does not list. *)
Fixpoint ascii_only (s : string) : bool :=
  match s with
  | EmptyString => true
  | String c r => (Nat.ltb (nat_of_ascii c) 128 && ascii_only r)%bool
  end.

(** Whether [s] is made of whitespace only. *)
Fixpoint all_space (s : string) : bool :=
  match s with
  | EmptyString => true
  | String c r => is_space c && all_space r
  end.

(** Whether the last character of [s] is whitespace. *)
Fixpoint last_is_space (s : string) : bool :=
  match s with
  | EmptyString => false
  | String c EmptyString => is_space c
  | String _ r => last_is_space r
  end.

(** Whether [s] begins with [p]. *)
Fixpoint starts_with (p s : string) : bool :=
  match p, s with
  | EmptyString, _ => true
  | String a p', String b s' => Ascii.eqb a b && starts_with p' s'
  | _, _ => false
  end.

(** ** More concrete worlds *)

(** A peer name the TLS layer refuses before any connection is made. *)
Definition bad_name_env : env :=
  {| wrap_socket := fun _ _ => Some ValueError;
     connect := connect renewed_env;
     getpeercert := getpeercert renewed_env;
     strptime := strptime renewed_env;
     utcnow := utcnow renewed_env;
     popen_read := popen_read renewed_env;
     requests_get := requests_get renewed_env;
     requests_post := requests_post renewed_env;
     boto3_client := boto3_client renewed_env;
     describe_security_groups := describe_security_groups renewed_env;
     SecurityGroup := SecurityGroup renewed_env;
     authorize_ingress := authorize_ingress renewed_env;
     revoke_ingress := revoke_ingress renewed_env |}.

(** Certificate due, the metadata service does not answer. *)
Definition offline_env : env :=
  {| wrap_socket := wrap_socket renewed_env;
     connect := connect renewed_env;
     getpeercert := getpeercert renewed_env;
     strptime := strptime renewed_env;
     utcnow := utcnow renewed_env;
     popen_read := popen_read renewed_env;
     requests_get := fun _ _ _ _ => Err (RequestException "Connection refused");
     requests_post := requests_post renewed_env;
     boto3_client := boto3_client renewed_env;
     describe_security_groups := describe_security_groups renewed_env;
     SecurityGroup := SecurityGroup renewed_env;
     authorize_ingress := authorize_ingress renewed_env;
     revoke_ingress := revoke_ingress renewed_env |}.

(** Certificate due, the security group of the instance is not found. *)
Definition no_group_cloud : cloud :=
  [ {| GroupId := "sg-77"; GroupName := "db"; IpPermissions := [] |} ].

(** The connection attempt is interrupted from the keyboard. *)
Definition interrupted_env : env :=
  sample_env {| sc_connect := Some KeyboardInterrupt; sc_seconds_left := three_days;
                sc_renewal := Ok ""; sc_revoke_fails := false |}.

(** The certificate's date does not parse. *)
Definition bad_date_env : env :=
  {| wrap_socket := wrap_socket renewed_env;
     connect := connect renewed_env;
     getpeercert := getpeercert renewed_env;
     strptime := fun _ _ => Err ValueError;
     utcnow := utcnow renewed_env;
     popen_read := popen_read renewed_env;
     requests_get := requests_get renewed_env;
     requests_post := requests_post renewed_env;
     boto3_client := boto3_client renewed_env;
     describe_security_groups := describe_security_groups renewed_env;
     SecurityGroup := SecurityGroup renewed_env;
     authorize_ingress := authorize_ingress renewed_env;
     revoke_ingress := revoke_ingress renewed_env |}.

(** The client gives no handle for the group. *)
Definition no_handle_env : env :=
  {| wrap_socket := wrap_socket renewed_env;
     connect := connect renewed_env;
     getpeercert := getpeercert renewed_env;
     strptime := strptime renewed_env;
     utcnow := utcnow renewed_env;
     popen_read := popen_read renewed_env;
     requests_get := requests_get renewed_env;
     requests_post := requests_post renewed_env;
     boto3_client := boto3_client renewed_env;
     describe_security_groups := describe_security_groups renewed_env;
     SecurityGroup := fun _ _ _ => Some AttributeError;
     authorize_ingress := authorize_ingress renewed_env;
     revoke_ingress := revoke_ingress renewed_env |}.


(** ** [get_slack_emoji.py]: the download loop (lines 65-80) *)

Module SlackEmoji.

(** What the loop does outside the process: [requests.get(image,
    stream=True)] with the status it answers, writing the image file
    (opening it and copying the body), a printed line, [r.close()]. *)
Inductive event : Type :=
| Fetch (url : string) (r : result Z)
| Save (path : string) (r : option exn)
| Say (line : string)
| Shut (url : string).

Record env : Type :=
  { get : list event -> string -> result Z;
    save : list event -> string -> option exn }.

(** [re.match(r'alias:.*', image)] succeeds exactly on the texts that
    begin with [alias:]. *)
Definition is_alias (image : string) : bool := starts_with "alias:" image.

(** [image.split('.')[-1]] *)
Definition extension (image : string) : string := last (split "." image) "".

(** One turn of the loop, from trace [tr]: the exception that ended it,
    if any, and the trace after it. *)
Definition turn (E : env) (emoji : string) (image : pyval) (tr : list event)
    : option exn * list event :=
  match image with
  | PStr s =>
      if is_alias s then (None, tr)
      else
        let e := extension s in
        match get E tr s with
        | Err x => (Some x, (tr ++ [Fetch s (Err x)])%list)
        | Ok status =>
            let tr1 : list event := (tr ++ [Fetch s (Ok status)])%list in
            if status =? 200 then
              let path := "slack_emoji/images/" ++ emoji ++ "." ++ e in
              match save E tr1 path with
              | Some x => (Some x, (tr1 ++ [Save path (Some x)])%list)
              | None =>
                  (None,
                   (tr1 ++ [Save path None;
                            Say ("Image sucessfully Downloaded: " ++ " " ++ emoji ++ "." ++ e);
                            Shut s])%list)
              end
            else
              (None,
               (tr1 ++ [Say ("Image Couldn't be retreived: " ++ " " ++ emoji ++ "." ++ e);
                        Shut s])%list)
        end
  | _ => (Some TypeError, tr)
  end.

(** [for emoji, image in emojii.items(): ...] *)
Fixpoint download_images (E : env) (items : dict) (tr : list event)
    : option exn * list event :=
  match items with
  | [] => (None, tr)
  | (emoji, image) :: rest =>
      match turn E emoji image tr with
      | (None, tr') => download_images E rest tr'
      | (Some x, tr') => (Some x, tr')
      end
  end.

(** The addresses asked for, and those closed, in order. *)
Fixpoint fetched (tr : list event) : list string :=
  match tr with
  | [] => []
  | Fetch u _ :: r => u :: fetched r
  | _ :: r => fetched r
  end.

Fixpoint shut (tr : list event) : list string :=
  match tr with
  | [] => []
  | Shut u :: r => u :: shut r
  | _ :: r => shut r
  end.

(** The images of a listing that are no aliases, in its order. *)
Fixpoint wanted (items : dict) : list string :=
  match items with
  | [] => []
  | (_, PStr s) :: r => if is_alias s then wanted r else s :: wanted r
  | _ :: r => wanted r
  end.

(** What a file the loop saved is, in terms of the listing: the image of
    an entry that is no alias, answered with status 200, under the
    entry's name and the image's extension. *)
Definition saved_from (items : dict) (evs : list event) (path : string) : Prop :=
  exists emoji image,
    In (emoji, PStr image) items /\
    is_alias image = false /\
    In (Fetch image (Ok 200)) evs /\
    path = "slack_emoji/images/" ++ emoji ++ "." ++ extension image.

(** A listing of two images and an alias; the second image is gone. *)
Definition sample_listing : dict :=
  [ ("party", PStr "https://emoji.example/a/party.gif");
    ("dance", PStr "alias:party");
    ("old", PStr "https://emoji.example/b/old.v2.png") ].

Definition sample_env : env :=
  {| get := fun _ url =>
       if String.eqb url "https://emoji.example/a/party.gif" then Ok 200 else Ok 404;
     save := fun _ _ => None |}.

End SlackEmoji.

(** * Theorems *)

(** ** [str.split] *)

(** The head of [split sep s] is the text before the first [sep], or all
    of [s] when [sep] does not occur. *)
Lemma split_head (sep : ascii) (s : string) :
  exists h t, split sep s = h :: t /\ has_char sep h = false /\
    ((has_char sep s = false /\ h = s) \/
     (exists rest, s = h ++ String sep rest)).
Proof.
  induction s as [|c r IH]; simpl.
  - exists EmptyString, []. repeat split. left. repeat split.
  - destruct (Ascii.eqb c sep) eqn:E.
    + apply Ascii.eqb_eq in E. subst c.
      exists EmptyString, (split sep r). repeat split.
      right. exists r. reflexivity.
    + destruct IH as (h & t & Hs & Hh & Hc). rewrite Hs.
      exists (String c h), t. split; [reflexivity|]. split.
      * simpl. rewrite E. exact Hh.
      * destruct Hc as [(Hn & ->) | (rest & ->)].
        -- left. split; [exact Hn | reflexivity].
        -- right. exists rest. reflexivity.
Qed.

(** ** The redirect handler *)

(** C10. For an event whose headers hold a string [h] under 'Host',
    [lambda_handler] returns statusCode 302, the Location
    'https://my-bucket-name.s3.amazonaws.com/' followed by the part of
    [h] before its first '.' (all of [h] when it has none), and the body
    '{}'.  An event dict without 'headers', or whose headers dict has no
    'Host', raises KeyError. *)
Theorem lambda_handler_redirect (event context : pyval) :
  (forall hs h,
      getitem event "headers" = Ok hs ->
      getitem hs "Host" = Ok (PStr h) ->
      exists resource,
        Lambda302.lambda_handler event context =
          Ok (PDict [ ("statusCode", PInt 302);
                      ("headers",
                        PDict [("Location",
                                PStr ("https://" ++ "my-bucket-name" ++
                                      ".s3.amazonaws.com/" ++ resource))]);
                      ("body", PStr "{}") ]) /\
        has_char "." resource = false /\
        ((has_char "." h = false /\ resource = h) \/
         (exists rest, h = resource ++ String "." rest))) /\
  (forall d,
      event = PDict d -> dict_get d "headers" = None ->
      Lambda302.lambda_handler event context = Err (KeyError "headers")) /\
  (forall d hd,
      event = PDict d -> dict_get d "headers" = Some (PDict hd) ->
      dict_get hd "Host" = None ->
      Lambda302.lambda_handler event context = Err (KeyError "Host")).
Proof.
  unfold Lambda302.lambda_handler. split; [|split].
  - intros hs h Hhs Hh. rewrite Hhs. simpl. rewrite Hh. simpl.
    destruct (split_head "." h) as (r & t & Hs & Hr & Hc).
    exists r. rewrite Hs. simpl. repeat split; assumption.
  - intros d -> Hd. simpl. rewrite Hd. reflexivity.
  - intros d hd -> Hd Hh. simpl. rewrite Hd. simpl. rewrite Hh. reflexivity.
Qed.

Lemma lambda_handler_redirect_witness :
  (exists resource,
      Lambda302.lambda_handler (Lambda302.host_event "docs.example.com") PNone =
        Ok (PDict [ ("statusCode", PInt 302);
                    ("headers",
                      PDict [("Location",
                              PStr ("https://" ++ "my-bucket-name" ++
                                    ".s3.amazonaws.com/" ++ resource))]);
                    ("body", PStr "{}") ]) /\
      has_char "." resource = false /\
      ((has_char "." "docs.example.com" = false /\ resource = "docs.example.com") \/
       (exists rest, "docs.example.com" = resource ++ String "." rest))) /\
  Lambda302.lambda_handler (PDict [("path", PStr "/")]) PNone
    = Err (KeyError "headers") /\
  Lambda302.lambda_handler (PDict [("headers", PDict [("Accept", PStr "*/*")])]) PNone
    = Err (KeyError "Host").
Proof.
  split; [|split].
  - apply (proj1 (lambda_handler_redirect (Lambda302.host_event "docs.example.com") PNone)
             (PDict [("Host", PStr "docs.example.com")]) "docs.example.com");
      reflexivity.
  - apply (proj1 (proj2 (lambda_handler_redirect (PDict [("path", PStr "/")]) PNone))
             [("path", PStr "/")]); reflexivity.
  - apply (proj2 (proj2 (lambda_handler_redirect
                           (PDict [("headers", PDict [("Accept", PStr "*/*")])]) PNone))
             [("headers", PDict [("Accept", PStr "*/*")])] [("Accept", PStr "*/*")]);
      reflexivity.
Defined.

Example lambda_handler_docs :
  Lambda302.lambda_handler (Lambda302.host_event "docs.example.com") PNone =
    Ok (PDict [ ("statusCode", PInt 302);
                ("headers",
                  PDict [("Location",
                          PStr "https://my-bucket-name.s3.amazonaws.com/docs")]);
                ("body", PStr "{}") ]).
Proof. reflexivity. Qed.

Example lambda_handler_no_dot :
  Lambda302.lambda_handler (Lambda302.host_event "localhost") PNone =
    Ok (PDict [ ("statusCode", PInt 302);
                ("headers",
                  PDict [("Location",
                          PStr "https://my-bucket-name.s3.amazonaws.com/localhost")]);
                ("body", PStr "{}") ]).
Proof. reflexivity. Qed.

(** ** The renewal decision *)

(** C2. [Decide] returns Renew exactly when the seconds left are below
    the threshold and Skip otherwise; at equality it returns Skip. *)
Theorem Decide_strict (seconds_left threshold : Z) :
  (Decide seconds_left threshold = Renew <-> seconds_left < threshold) /\
  (Decide seconds_left threshold = Skip <-> threshold <= seconds_left) /\
  Decide threshold threshold = Skip.
Proof.
  unfold Decide. rewrite Z.ltb_irrefl.
  destruct (Z.ltb_spec seconds_left threshold); repeat split;
    intros; try reflexivity; try discriminate; lia.
Qed.

(** ** Looking up the security group *)

(** C9. [get_security_group_by_name] builds a client of its own and asks
    it for the groups named [name]; it returns the GroupId of the first
    group of the answer, raises IndexError when the answer is empty, and
    is the same computation whatever client it is handed. *)
Theorem get_security_group_by_name_partial
    (E : env) (ec2 fresh : client) (name : string) (w : world)
    (groups : list security_group)
    (Hclient : boto3_client E w "ec2" = Ok fresh)
    (Hdescribe :
       describe_security_groups E (log w (EBotoClient "ec2" (Ok fresh))) fresh name
         = Ok groups) :
  let r := get_security_group_by_name E ec2 name w in
  trace (snd r) =
    (trace w ++ [EBotoClient "ec2" (Ok fresh);
                 EDescribeSecurityGroups fresh name (Ok groups)])%list /\
  (forall g rest, groups = g :: rest -> fst r = Ret (GroupId g)) /\
  (groups = [] -> fst r = Raise IndexError) /\
  (forall ec2', get_security_group_by_name E ec2' name w = r).
Proof.
  unfold get_security_group_by_name, bind, call, lift, ret, raise.
  rewrite Hclient. cbv zeta. simpl. rewrite Hdescribe.
  destruct groups as [|g rest]; simpl; rewrite <- app_assoc; simpl;
    repeat split; intros; try discriminate; congruence.
Qed.

Lemma get_security_group_by_name_partial_witness :
  (fst (get_security_group_by_name renewed_env {| client_id := 7 |} "web"
          (start sample_cloud)) = Ret "sg-0a1b" /\
   fst (get_security_group_by_name renewed_env {| client_id := 7 |} "db"
          (start sample_cloud)) = Raise IndexError) /\
  get_security_group_by_name renewed_env {| client_id := 8 |} "web" (start sample_cloud)
    = get_security_group_by_name renewed_env {| client_id := 7 |} "web"
        (start sample_cloud).
Proof.
  split; [split|].
  - apply (proj1 (proj2 (get_security_group_by_name_partial
                           renewed_env {| client_id := 7 |} ec2_0 "web"
                           (start sample_cloud) sample_cloud eq_refl eq_refl))
             (web_group [https_rule]) []).
    reflexivity.
  - apply (proj1 (proj2 (proj2 (get_security_group_by_name_partial
                                  renewed_env {| client_id := 7 |} ec2_0 "db"
                                  (start sample_cloud) [] eq_refl eq_refl)))).
    reflexivity.
  - apply (proj2 (proj2 (proj2 (get_security_group_by_name_partial
                                  renewed_env {| client_id := 7 |} ec2_0 "web"
                                  (start sample_cloud) sample_cloud eq_refl eq_refl)))).
Defined.

(** ** Adding and removing the rule *)

(** What one call of the two functions does.  When the handle cannot
    be built the exception leaves the function, the API is not called
    and the security groups stay as they are; otherwise the function
    ends as its one API call does, and an exception of the call leaves
    the function unchanged. *)
Lemma add_rule_outcome
    (E : env) (ec2 : client) (security_group : string) (w : world) :
  let r := add_rule_to_security_group E ec2 security_group w in
  let a := authorize_ingress E w ec2 security_group temp_rule in
  match SecurityGroup E w ec2 security_group with
  | Some e =>
      r = (Raise e,
           {| trace := (trace w ++
                        [EAuthorizeIngress ec2 security_group temp_rule (Some e)])%list;
              sgs := sgs w |})
  | None =>
      r = (match fst a with None => Ret tt | Some e => Raise e end,
           {| trace := (trace w ++
                        [EAuthorizeIngress ec2 security_group temp_rule (fst a)])%list;
              sgs := snd a |})
  end.
Proof.
  unfold add_rule_to_security_group, call_cloud, log. cbv zeta.
  destruct (SecurityGroup E w ec2 security_group) as [e|]; [reflexivity|].
  destruct (authorize_ingress E w ec2 security_group temp_rule) as [[e|] c];
    reflexivity.
Qed.

Lemma remove_rule_outcome
    (E : env) (ec2 : client) (security_group : string) (w : world) :
  let r := remove_rule_from_security_group E ec2 security_group w in
  let a := revoke_ingress E w ec2 security_group temp_rule in
  match SecurityGroup E w ec2 security_group with
  | Some e =>
      r = (Raise e,
           {| trace := (trace w ++
                        [ERevokeIngress ec2 security_group temp_rule (Some e)])%list;
              sgs := sgs w |})
  | None =>
      r = (match fst a with None => Ret tt | Some e => Raise e end,
           {| trace := (trace w ++
                        [ERevokeIngress ec2 security_group temp_rule (fst a)])%list;
              sgs := snd a |})
  end.
Proof.
  unfold remove_rule_from_security_group, call_cloud, log. cbv zeta.
  destruct (SecurityGroup E w ec2 security_group) as [e|]; [reflexivity|].
  destruct (revoke_ingress E w ec2 security_group temp_rule) as [[e|] c];
    reflexivity.
Qed.

(** C5, as stated, fails: with the rule already in the group the add
    raises the API's duplicate error, and with the rule absent the remove
    raises its not-found error; in [main] the first ends the process with
    status 1 before the renewal tool runs. *)
Lemma rule_mutation_not_idempotent :
  group_rules stale_cloud "sg-0a1b" = Some (https_rule :: temp_rule) /\
  fst (add_rule_to_security_group renewed_env ec2_0 "sg-0a1b" (start stale_cloud))
    = Raise (ClientError "InvalidPermission.Duplicate") /\
  group_rules sample_cloud "sg-0a1b" = Some [https_rule] /\
  fst (remove_rule_from_security_group renewed_env ec2_0 "sg-0a1b" (start sample_cloud))
    = Raise (ClientError "InvalidPermission.NotFound") /\
  fst (run renewed_env stale_cloud argv0)
    = Raise (ClientError "InvalidPermission.Duplicate") /\
  exit_status (fst (run renewed_env stale_cloud argv0)) = 1 /\
  window (trace (snd (run renewed_env stale_cloud argv0))) = [AddRule false].
Proof. vm_compute. repeat split. Qed.

(** ** Traces *)

Lemma window_app (a b : list event) : window (a ++ b) = (window a ++ window b)%list.
Proof.
  induction a as [|ev a IH]; simpl; [reflexivity|].
  destruct (step_of ev); simpl; rewrite IH; reflexivity.
Qed.

Lemma commands_app (a b : list event) :
  commands (a ++ b) = (commands a ++ commands b)%list.
Proof.
  induction a as [|ev a IH]; simpl; [reflexivity|].
  destruct ev; simpl; rewrite ?IH; reflexivity.
Qed.

Lemma count_app (f : event -> bool) (a b : list event) :
  count f (a ++ b) = (count f a + count f b)%nat.
Proof. unfold count. rewrite filter_app, length_app. reflexivity. Qed.

Lemma step_of_pre (r : result string) : step_of (EPopen pre_command r) = None.
Proof. reflexivity. Qed.

Lemma step_of_renewal (r : result string) :
  step_of (EPopen (renewal_command domain) r) = Some RenewalTool.
Proof. reflexivity. Qed.

(** Events of the certificate check touch neither the window, nor the
    shell, nor the EC2 side. *)
Lemma tls_events (evs : list event) :
  forallb is_tls evs = true ->
  window evs = [] /\ commands evs = [] /\ count is_cloud_call evs = 0%nat /\
  count is_revoke evs = 0%nat /\
  (forall cmd r, ~ In (EPopen cmd r) evs).
Proof.
  induction evs as [|ev evs IH]; simpl.
  - intros _. repeat split. intros cmd r [].
  - intros H. apply andb_prop in H. destruct H as [Hev Hevs].
    destruct (IH Hevs) as (Hw & Hc & Hn & Hr & Hp).
    destruct ev; try discriminate Hev; simpl; unfold count in *; simpl;
      repeat split; try assumption;
      intros cmd r0 [Heq|Hin]; try discriminate Heq; exact (Hp _ _ Hin).
Qed.

(** [ssl_expiration] leaves the security groups alone and adds only
    events of its own to the trace. *)
Lemma ssl_expiration_frame (E : env) (hostname : string) (w : world) :
  let r := ssl_expiration E hostname w in
  sgs (snd r) = sgs w /\
  exists evs, trace (snd r) = (trace w ++ evs)%list /\ forallb is_tls evs = true.
Proof.
  unfold_script. cbv zeta.
  repeat (simpl; try next_answer); simpl; (split; [reflexivity|]);
    rewrite <- ?app_assoc; simpl; eexists; (split; [reflexivity|]); reflexivity.
Qed.

Lemma tls_mutations (evs : list event) :
  forallb is_tls evs = true -> mutations evs = [].
Proof.
  induction evs as [|ev evs IH]; simpl; [reflexivity|].
  intros H. apply andb_prop in H. destruct H as [Hev Hevs].
  destruct ev; try discriminate Hev; simpl; exact (IH Hevs).
Qed.

Lemma Decide_skip (s t : Z) : t <= s -> Decide s t = Skip.
Proof. unfold Decide. intros H. destruct (Z.ltb_spec s t); [lia|reflexivity]. Qed.


Lemma last_app_nonempty {A} (a b : list A) (d : A) :
  b <> [] -> last (a ++ b) d = last b d.
Proof.
  intros Hb. induction a as [|x a IH]; simpl; [reflexivity|].
  rewrite IH. destruct (a ++ b)%list eqn:Hab; [|reflexivity].
  apply app_eq_nil in Hab. destruct Hab as [_ Hab]. contradiction.
Qed.

Lemma mutations_app (a b : list event) :
  mutations (a ++ b) = (mutations a ++ mutations b)%list.
Proof.
  induction a as [|ev a IH]; simpl; [reflexivity|].
  destruct ev; simpl; rewrite ?IH; reflexivity.
Qed.

Lemma pre_command_not_renewal : pre_command <> renewal_command domain.
Proof. discriminate. Qed.

Lemma pre_command_not_post : pre_command <> post_command.
Proof. discriminate. Qed.

Lemma renewal_not_post : renewal_command domain <> post_command.
Proof. discriminate. Qed.

(** ** The renewal block *)

(** The window of the block is an initial part of add, renew, remove;
    it is whole when the block returns. *)
Lemma execute_renewal_window (E : env) (w : world) :
  let r := execute_renewal E w in
  exists evs, trace (snd r) = (trace w ++ evs)%list /\
    (window evs = [] \/ window evs = [AddRule false] \/ window evs = [AddRule true] \/
     window evs = [AddRule true; RenewalTool] \/
     window evs = [AddRule true; RenewalTool; RemoveRule]) /\
    (fst r = Ret tt ->
     window evs = [AddRule true; RenewalTool; RemoveRule] /\
     commands evs = [pre_command; renewal_command domain; pre_command]) /\
    (forall cmd, In cmd (commands evs) ->
                 cmd = pre_command \/ cmd = renewal_command domain).
Proof.
  unfold_script. cbv zeta.
  repeat (simpl; try next_answer); block_leaf;
    (split; [simpl; tauto|]);
    (split; [simpl; intros H; try discriminate H; split; reflexivity|]);
    simpl; intros cmd H; intuition (subst; auto).
Qed.


(** A refused revoke is the last thing the block does: it is the only
    revoke, and its exception leaves the block. *)
Lemma execute_renewal_revoke_failure (E : env) (w : world) :
  let r := execute_renewal E w in
  exists evs, trace (snd r) = (trace w ++ evs)%list /\
    (count is_revoke evs <= 1)%nat /\
    (forall ec2 group perms e,
       In (ERevokeIngress ec2 group perms (Some e)) evs ->
       fst r = Raise e /\
       count is_revoke evs = 1%nat /\
       last evs EClose = ERevokeIngress ec2 group perms (Some e)).
Proof.
  unfold_script. cbv zeta.
  repeat (simpl; try next_answer); block_leaf;
    (split; [unfold count; simpl; lia|]);
    simpl; intros ec2 group perms x H;
    repeat match type of H with
           | _ \/ _ => destruct H as [H|H]
           | False => contradiction
           | _ = _ => first [discriminate H | injection H as; subst]
           end;
    repeat split.
Qed.

(** A failed add is the last thing the block does: the renewal tool
    is not started, and the exception leaves the block. *)
Lemma execute_renewal_authorize_failure (E : env) (w : world) :
  let r := execute_renewal E w in
  exists evs, trace (snd r) = (trace w ++ evs)%list /\
    (forall ec2 group perms e,
       In (EAuthorizeIngress ec2 group perms (Some e)) evs ->
       fst r = Raise e /\
       window evs = [AddRule false] /\
       last evs EClose = EAuthorizeIngress ec2 group perms (Some e)).
Proof.
  unfold_script. cbv zeta.
  repeat (simpl; try next_answer); block_leaf;
    simpl; intros ec2 group perms x H;
    repeat match type of H with
           | _ \/ _ => destruct H as [H|H]
           | False => contradiction
           | _ = _ => first [discriminate H | injection H as; subst]
           end;
    repeat split.
Qed.

(** ** From the block to the process *)

Lemma main_unfold (E : env) (argv : list string) (w : world) :
  main E argv w =
    match nth_error argv 1 with
    | None => (Raise IndexError, w)
    | Some hostname =>
        match ssl_expiration E hostname w with
        | (Ret (_, _, s), w1) =>
            if s <? threshold then execute_renewal E w1 else (Ret tt, w1)
        | (Raise e, w1) => (Raise e, w1)
        | (Exit a, w1) => (Exit a, w1)
        end
    end.
Proof.
  unfold main, bind, lift, ret, raise, Decide.
  destruct (nth_error argv 1) as [hostname|]; [|reflexivity].
  destruct (ssl_expiration E hostname w) as [[[[exp rem] s]|e|a] w1]; try reflexivity.
  destruct (s <? threshold); reflexivity.
Qed.

(** A run either never reaches the block, and then its trace holds
    events of the certificate check only, or it is the certificate check,
    a decision to renew, and the block. *)
Lemma run_cases (E : env) (c : cloud) (argv : list string) :
  let r := run E c argv in
  (forallb is_tls (trace (snd r)) = true /\ sgs (snd r) = c /\
   forall hostname exp rem s w1,
     nth_error argv 1 = Some hostname ->
     ssl_expiration E hostname (start c) = (Ret (exp, rem, s), w1) ->
     threshold <= s /\ r = (Ret tt, w1)) \/
  (exists hostname exp rem s w1,
     nth_error argv 1 = Some hostname /\
     ssl_expiration E hostname (start c) = (Ret (exp, rem, s), w1) /\
     s < threshold /\
     forallb is_tls (trace w1) = true /\ sgs w1 = c /\
     r = execute_renewal E w1).
Proof.
  unfold run. rewrite main_unfold. cbv zeta.
  destruct (nth_error argv 1) as [hostname|] eqn:Harg; simpl.
  2:{ left. split; [reflexivity|]. split; [reflexivity|]. intros; discriminate. }
  pose proof (ssl_expiration_frame E hostname (start c)) as F.
  cbv zeta in F. simpl in F. destruct F as (Hs & evs & Ht & Htls).
  destruct (ssl_expiration E hostname (start c))
    as [[[[exp rem] s]|e|a] w1] eqn:Hssl; simpl in Hs, Ht; subst evs.
  - destruct (Z.ltb_spec s threshold).
    + right. exists hostname, exp, rem, s, w1.
      repeat split; try assumption; reflexivity.
    + left. simpl. split; [assumption|]. split; [assumption|].
      intros h' exp' rem' s' w1' Hh H'. injection Hh as <-.
      rewrite Hssl in H'. injection H' as <- <- <- <-.
      split; [assumption|reflexivity].
  - left. simpl. split; [assumption|]. split; [assumption|].
    intros h' exp' rem' s' w1' Hh H'. injection Hh as <-.
    rewrite Hssl in H'. discriminate H'.
  - left. simpl. split; [assumption|]. split; [assumption|].
    intros h' exp' rem' s' w1' Hh H'. injection Hh as <-.
    rewrite Hssl in H'. discriminate H'.
Qed.

(** An uncaught exception gives a non-zero status, 1 when it is of
    class Exception. *)
Lemma uncaught_status {A} (o : outcome A) (e : exn) :
  o = Raise e ->
  exit_status o <> 0 /\ (is_Exception e = true -> exit_status o = 1).
Proof.
  intros ->. simpl. destruct (is_Exception e); split; intros; try lia;
    try discriminate; reflexivity.
Qed.

(** A failed remove seen from the process: the only remove of the run,
    its last event, and its exception ends the run. *)
Lemma run_revoke_failure
    (E : env) (c : cloud) (argv : list string)
    (ec2 : client) (group : string) (perms : list ip_permission) (e : exn) :
  In (ERevokeIngress ec2 group perms (Some e)) (trace (snd (run E c argv))) ->
  count is_revoke (trace (snd (run E c argv))) = 1%nat /\
  last (trace (snd (run E c argv))) EClose = ERevokeIngress ec2 group perms (Some e) /\
  fst (run E c argv) = Raise e.
Proof.
  intros Hfail.
  destruct (run_cases E c argv) as [(Htls & _ & _) | Hrenew].
  - exfalso. rewrite forallb_forall in Htls.
    specialize (Htls _ Hfail). discriminate Htls.
  - destruct Hrenew as (h & exp & rem & s & w1 & _ & _ & _ & Htls & _ & Hrun).
    rewrite Hrun in *. clear Hrun.
    destruct (execute_renewal_revoke_failure E w1) as (evs & Htr & _ & Hev).
    destruct (tls_events _ Htls) as (_ & _ & _ & Hr & _).
    rewrite Htr in Hfail. apply in_app_or in Hfail.
    destruct Hfail as [Hin|Hin].
    + exfalso. rewrite forallb_forall in Htls.
      specialize (Htls _ Hin). discriminate Htls.
    + destruct (Hev _ _ _ _ Hin) as (Hraise & Hcount & Hlast).
      rewrite Htr, count_app, Hr, Hcount, Hraise.
      repeat split.
      destruct evs as [|ev evs]; [contradiction|].
      rewrite last_app_nonempty by discriminate. exact Hlast.
Qed.

(** A failed add seen from the process: the renewal tool was not
    started, the add is the last event, and its exception ends the run. *)
Lemma run_authorize_failure
    (E : env) (c : cloud) (argv : list string)
    (ec2 : client) (group : string) (perms : list ip_permission) (e : exn) :
  In (EAuthorizeIngress ec2 group perms (Some e)) (trace (snd (run E c argv))) ->
  window (trace (snd (run E c argv))) = [AddRule false] /\
  last (trace (snd (run E c argv))) EClose
    = EAuthorizeIngress ec2 group perms (Some e) /\
  fst (run E c argv) = Raise e.
Proof.
  intros Hfail.
  destruct (run_cases E c argv) as [(Htls & _ & _) | Hrenew].
  - exfalso. rewrite forallb_forall in Htls.
    specialize (Htls _ Hfail). discriminate Htls.
  - destruct Hrenew as (h & exp & rem & s & w1 & _ & _ & _ & Htls & _ & Hrun).
    rewrite Hrun in *. clear Hrun.
    destruct (execute_renewal_authorize_failure E w1) as (evs & Htr & Hev).
    destruct (tls_events _ Htls) as (Hw & _).
    rewrite Htr in Hfail. apply in_app_or in Hfail.
    destruct Hfail as [Hin|Hin].
    + exfalso. rewrite forallb_forall in Htls.
      specialize (Htls _ Hin). discriminate Htls.
    + destruct (Hev _ _ _ _ Hin) as (Hraise & Hwin & Hlast).
      rewrite Htr, window_app, Hw, Hwin, Hraise.
      repeat split.
      destruct evs as [|ev evs]; [contradiction|].
      rewrite last_app_nonempty by discriminate. exact Hlast.
Qed.

(** The text of the block ends with the parenthesis of line 212 open,
    and with nothing else open. *)
Lemma main_block_left_open :
  open_brackets main_block_text InCode 0 0 = (InCode, 1%nat).
Proof. vm_compute. reflexivity. Qed.


(** With the call closed on line 215 the same reading finds nothing
    open. *)
Example closed_block_is_closed : brackets_closed closed_block_text = true.
Proof. vm_compute. reflexivity. Qed.


(** ** The process *)

(** C3. When the certificate check yields at least [threshold] seconds,
    the decision is Skip and the process ends at once: its trace holds
    events of the check only, so no client is built and no describe,
    authorize or revoke call is made, no command is run, and the
    security groups are as they were. *)
Theorem skip_makes_no_cloud_call
    (E : env) (c : cloud) (argv : list string)
    (hostname : string) (exp rem s : Z) (w1 : world)
    (Harg : nth_error argv 1 = Some hostname)
    (Hcheck : ssl_expiration E hostname (start c) = (Ret (exp, rem, s), w1))
    (Hs : threshold <= s) :
  Decide s threshold = Skip /\
  run E c argv = (Ret tt, w1) /\
  forallb is_tls (trace w1) = true /\
  count is_cloud_call (trace w1) = 0%nat /\
  mutations (trace w1) = [] /\
  commands (trace w1) = [] /\
  sgs w1 = c.
Proof.
  split; [apply Decide_skip; exact Hs|].
  destruct (run_cases E c argv) as [(Htls & Hc & Hrun) | Hrenew].
  - destruct (Hrun _ _ _ _ _ Harg Hcheck) as [_ Hr].
    rewrite Hr in Htls, Hc. simpl in Htls, Hc.
    destruct (tls_events _ Htls) as (_ & Hcmd & Hcloud & _ & _).
    repeat split; try assumption. apply tls_mutations; exact Htls.
  - destruct Hrenew as (h' & exp' & rem' & s' & w1' & Harg' & Hcheck' & Hs' & _).
    rewrite Harg in Harg'. injection Harg' as <-.
    rewrite Hcheck in Hcheck'. injection Hcheck' as <- <- <- <-. lia.
Qed.

Lemma skip_makes_no_cloud_call_witness :
  Decide thirty_days threshold = Skip /\
  run fresh_env sample_cloud argv0 =
    (Ret tt,
     {| trace := [EWrapSocket "mydomain.tld" None; EConnect "mydomain.tld" 443 None;
                  EGetPeerCert; EClose];
        sgs := sample_cloud |}) /\
  sgs (snd (run fresh_env sample_cloud argv0)) = sample_cloud.
Proof.
  pose proof (skip_makes_no_cloud_call fresh_env sample_cloud argv0 "mydomain.tld"
                (sample_now + thirty_days * 1000000) (thirty_days * 1000000)
                thirty_days
                {| trace := [EWrapSocket "mydomain.tld" None;
                             EConnect "mydomain.tld" 443 None; EGetPeerCert; EClose];
                   sgs := sample_cloud |}
                eq_refl eq_refl ltac:(vm_compute; discriminate)) as H.
  destruct H as (Hd & Hrun & _ & _ & _ & _ & _).
  split; [exact Hd|]. split; [exact Hrun|]. rewrite Hrun. reflexivity.
Defined.






(** C5, as the code has it.  Each of the two functions builds the
    handle of the group and makes its one API call, with no handler
    around either line.  When the handle cannot be built the exception
    leaves the function, the API is not called and the security groups
    stay as they are; otherwise the function returns when the call
    does, and an exception of the call leaves the function unchanged.
    The main block has no handler either: a failed add or a failed
    remove is the last event of the run, its exception ends the process
    with a status that is not 0 (1 for an exception of class Exception),
    and after a failed add the renewal tool is not started. *)
Theorem rule_mutation_propagates (E : env) :
  (forall (ec2 : client) (security_group : string) (w : world),
     let r := add_rule_to_security_group E ec2 security_group w in
     let a := authorize_ingress E w ec2 security_group temp_rule in
     match SecurityGroup E w ec2 security_group with
     | Some e =>
         r = (Raise e,
              {| trace := (trace w ++
                           [EAuthorizeIngress ec2 security_group temp_rule (Some e)])%list;
                 sgs := sgs w |})
     | None =>
         r = (match fst a with None => Ret tt | Some e => Raise e end,
              {| trace := (trace w ++
                           [EAuthorizeIngress ec2 security_group temp_rule (fst a)])%list;
                 sgs := snd a |})
     end) /\
  (forall (ec2 : client) (security_group : string) (w : world),
     let r := remove_rule_from_security_group E ec2 security_group w in
     let a := revoke_ingress E w ec2 security_group temp_rule in
     match SecurityGroup E w ec2 security_group with
     | Some e =>
         r = (Raise e,
              {| trace := (trace w ++
                           [ERevokeIngress ec2 security_group temp_rule (Some e)])%list;
                 sgs := sgs w |})
     | None =>
         r = (match fst a with None => Ret tt | Some e => Raise e end,
              {| trace := (trace w ++
                           [ERevokeIngress ec2 security_group temp_rule (fst a)])%list;
                 sgs := snd a |})
     end) /\
  (forall (c : cloud) (argv : list string)
          (ec2 : client) (group : string) (perms : list ip_permission) (e : exn),
     In (EAuthorizeIngress ec2 group perms (Some e)) (trace (snd (run E c argv))) ->
     fst (run E c argv) = Raise e /\
     last (trace (snd (run E c argv))) EClose
       = EAuthorizeIngress ec2 group perms (Some e) /\
     window (trace (snd (run E c argv))) = [AddRule false] /\
     exit_status (fst (run E c argv)) <> 0 /\
     (is_Exception e = true -> exit_status (fst (run E c argv)) = 1)) /\
  (forall (c : cloud) (argv : list string)
          (ec2 : client) (group : string) (perms : list ip_permission) (e : exn),
     In (ERevokeIngress ec2 group perms (Some e)) (trace (snd (run E c argv))) ->
     fst (run E c argv) = Raise e /\
     last (trace (snd (run E c argv))) EClose
       = ERevokeIngress ec2 group perms (Some e) /\
     exit_status (fst (run E c argv)) <> 0 /\
     (is_Exception e = true -> exit_status (fst (run E c argv)) = 1)).
Proof.
  split; [intros; apply add_rule_outcome|].
  split; [intros; apply remove_rule_outcome|].
  split.
  - intros c argv ec2 group perms e Hfail.
    destruct (run_authorize_failure E c argv ec2 group perms e Hfail)
      as (Hwin & Hlast & Hraise).
    split; [exact Hraise|]. split; [exact Hlast|]. split; [exact Hwin|].
    exact (uncaught_status _ _ Hraise).
  - intros c argv ec2 group perms e Hfail.
    destruct (run_revoke_failure E c argv ec2 group perms e Hfail)
      as (_ & Hlast & Hraise).
    split; [exact Hraise|]. split; [exact Hlast|].
    exact (uncaught_status _ _ Hraise).
Qed.

Lemma rule_mutation_propagates_witness :
  fst (run renewed_env stale_cloud argv0)
    = Raise (ClientError "InvalidPermission.Duplicate") /\
  last (trace (snd (run renewed_env stale_cloud argv0))) EClose
    = EAuthorizeIngress ec2_0 "sg-0a1b" temp_rule
        (Some (ClientError "InvalidPermission.Duplicate")) /\
  window (trace (snd (run renewed_env stale_cloud argv0))) = [AddRule false] /\
  exit_status (fst (run renewed_env stale_cloud argv0)) <> 0 /\
  (is_Exception (ClientError "InvalidPermission.Duplicate") = true ->
   exit_status (fst (run renewed_env stale_cloud argv0)) = 1).
Proof.
  apply (proj1 (proj2 (proj2 (rule_mutation_propagates renewed_env)))
           stale_cloud argv0 ec2_0 "sg-0a1b" temp_rule
           (ClientError "InvalidPermission.Duplicate")).
  vm_compute. repeat (first [left; reflexivity | right]).
Defined.

(** When the handle cannot be built the add fails before the API is
    asked anything: the group keeps its rules and the run ends there. *)
Example handle_failure_ends_run :
  add_rule_to_security_group no_handle_env ec2_0 "sg-0a1b" (start sample_cloud)
    = (Raise AttributeError,
       {| trace := [EAuthorizeIngress ec2_0 "sg-0a1b" temp_rule (Some AttributeError)];
          sgs := sample_cloud |}) /\
  fst (run no_handle_env sample_cloud argv0) = Raise AttributeError /\
  window (trace (snd (run no_handle_env sample_cloud argv0))) = [AddRule false] /\
  commands (trace (snd (run no_handle_env sample_cloud argv0))) = [pre_command] /\
  sgs (snd (run no_handle_env sample_cloud argv0)) = sample_cloud.
Proof. vm_compute. repeat split. Qed.

(** C6, as the code has it. A failed remove is not retried and nothing
    of the process answers it: it is the only remove of the run and its
    last event, its exception leaves the process uncaught, and the exit
    status is not 0 (it is 1 for an exception of class Exception). *)
Theorem revoke_failure_not_retried
    (E : env) (c : cloud) (argv : list string)
    (ec2 : client) (group : string) (perms : list ip_permission) (e : exn)
    (Hfail : In (ERevokeIngress ec2 group perms (Some e))
                (trace (snd (run E c argv)))) :
  count is_revoke (trace (snd (run E c argv))) = 1%nat /\
  last (trace (snd (run E c argv))) EClose = ERevokeIngress ec2 group perms (Some e) /\
  fst (run E c argv) = Raise e /\
  exit_status (fst (run E c argv)) <> 0 /\
  (is_Exception e = true -> exit_status (fst (run E c argv)) = 1).
Proof.
  destruct (run_revoke_failure E c argv ec2 group perms e Hfail)
    as (Hcount & Hlast & Hraise).
  split; [exact Hcount|]. split; [exact Hlast|]. split; [exact Hraise|].
  exact (uncaught_status _ _ Hraise).
Qed.

Lemma revoke_failure_not_retried_witness :
  count is_revoke (trace (snd (run stuck_env sample_cloud argv0))) = 1%nat /\
  last (trace (snd (run stuck_env sample_cloud argv0))) EClose
    = ERevokeIngress ec2_0 "sg-0a1b" temp_rule (Some (ClientError "RequestLimitExceeded")) /\
  fst (run stuck_env sample_cloud argv0) = Raise (ClientError "RequestLimitExceeded") /\
  exit_status (fst (run stuck_env sample_cloud argv0)) <> 0 /\
  (is_Exception (ClientError "RequestLimitExceeded") = true ->
   exit_status (fst (run stuck_env sample_cloud argv0)) = 1).
Proof.
  apply (revoke_failure_not_retried stuck_env sample_cloud argv0 ec2_0 "sg-0a1b"
           temp_rule (ClientError "RequestLimitExceeded")).
  vm_compute. repeat (first [left; reflexivity | right]).
Defined.

(** C6, as stated, fails: the API refuses the revoke, the run holds that
    one revoke and no second try, nothing is printed after it, and the
    rule stays in the group. *)
Lemma revoke_failure_no_retry_example :
  In (ERevokeIngress ec2_0 "sg-0a1b" temp_rule (Some (ClientError "RequestLimitExceeded")))
     (trace (snd (run stuck_env sample_cloud argv0))) /\
  count is_revoke (trace (snd (run stuck_env sample_cloud argv0))) = 1%nat /\
  last (trace (snd (run stuck_env sample_cloud argv0))) EClose
    = ERevokeIngress ec2_0 "sg-0a1b" temp_rule (Some (ClientError "RequestLimitExceeded")) /\
  group_rules (sgs (snd (run stuck_env sample_cloud argv0))) "sg-0a1b"
    = Some (https_rule :: temp_rule).
Proof.
  split; [vm_compute; repeat (first [left; reflexivity | right])|].
  vm_compute. repeat split.
Qed.




(** C8, at the failing path. No run hands [post_command] to the shell:
    the only commands are [pre_command] and the renewal command.  On the
    run of a due certificate where every step succeeds, the command after
    the revoke, announced as the post-command, is [pre_command] again. *)
Theorem post_command_never_run :
  (forall (E : env) (c : cloud) (argv : list string) (cmd : string),
      In cmd (commands (trace (snd (run E c argv)))) ->
      (cmd = pre_command \/ cmd = renewal_command domain) /\ cmd <> post_command) /\
  fst (run renewed_env sample_cloud argv0) = Ret tt /\
  commands (trace (snd (run renewed_env sample_cloud argv0)))
    = [pre_command; renewal_command domain; pre_command] /\
  pre_command <> post_command.
Proof.
  split; [|split; [reflexivity|split; [reflexivity|exact pre_command_not_post]]].
  intros E c argv cmd Hin.
  assert (H : cmd = pre_command \/ cmd = renewal_command domain).
  { destruct (run_cases E c argv) as [(Htls & _ & _) | Hrenew].
    - destruct (tls_events _ Htls) as (_ & Hc & _). rewrite Hc in Hin. contradiction.
    - destruct Hrenew as (h & exp & rem & s & w1 & _ & _ & _ & Htls & _ & Hrun).
      rewrite Hrun in Hin.
      destruct (execute_renewal_window E w1) as (evs & Htr & _ & _ & Hcmd).
      destruct (tls_events _ Htls) as (_ & Hc & _).
      rewrite Htr, commands_app, Hc in Hin. exact (Hcmd _ Hin). }
  split; [exact H|].
  destruct H as [-> | ->]; [exact pre_command_not_post | exact renewal_not_post].
Qed.

Lemma post_command_never_run_witness :
  (pre_command = pre_command \/ pre_command = renewal_command domain) /\
  pre_command <> post_command.
Proof.
  apply (proj1 post_command_never_run renewed_env sample_cloud argv0 pre_command).
  vm_compute. left. reflexivity.
Defined.

(** * Further properties of the two scripts *)

(** ** [request] *)

(** X1. A method that is neither post nor get makes no call: [request]
    returns [None] and leaves the world as it is. *)
Theorem request_unknown_method
    (E : env) (m url : string) (headers : pyval) (args : list pyval) (w : world)
    (Hpost : lower m <> "post") (Hget : lower m <> "get") :
  request E m url headers args w = (Ret None, w).
Proof.
  unfold request, try_except.
  destruct (String.eqb_spec (lower m) "post") as [H|_]; [contradiction|].
  destruct (String.eqb_spec (lower m) "get") as [H|_]; [contradiction|].
  reflexivity.
Qed.

Lemma request_unknown_method_witness :
  request renewed_env "PUT" security_groups_url (PDict []) [PDict []] (start sample_cloud)
    = (Ret None, start sample_cloud).
Proof.
  apply request_unknown_method; discriminate.
Defined.

(** X2. An exception of the get or post call ends the process through
    [sys.exit(e)], status 1, when it is a RequestException; any other
    exception leaves [request] as it is.  Either way the one call is all
    that was made. *)
Theorem request_error_policy
    (E : env) (m url : string) (headers data : pyval) (rest : list pyval)
    (w : world) (e : exn)
    (Hget : lower m = "get")
    (Hfail : requests_get E w url headers data = Err e) :
  let r := request E m url headers (data :: rest) w in
  snd r = log w (ERequestsGet url (Err e)) /\
  (is_RequestException e = true ->
   fst r = Exit (Some e) /\ exit_status (fst r) = 1) /\
  (is_RequestException e = false -> fst r = Raise e).
Proof.
  unfold request, try_except, bind, lift, call, index0, ret, sys_exit.
  rewrite Hget. simpl. rewrite Hfail.
  destruct (is_RequestException e); repeat split; intros; try discriminate; reflexivity.
Qed.

Lemma request_error_policy_witness :
  snd (request offline_env "get" identity_document_url (PDict []) [PDict []]
         (start sample_cloud))
    = log (start sample_cloud)
          (ERequestsGet identity_document_url
             (Err (RequestException "Connection refused"))) /\
  fst (request offline_env "get" identity_document_url (PDict []) [PDict []]
         (start sample_cloud))
    = Exit (Some (RequestException "Connection refused")).
Proof.
  pose proof (request_error_policy offline_env "get" identity_document_url
                (PDict []) (PDict []) [] (start sample_cloud)
                (RequestException "Connection refused") eq_refl eq_refl) as H.
  cbv zeta in H. destruct H as (Hw & Hexit & _).
  split; [exact Hw | exact (proj1 (Hexit eq_refl))].
Defined.

(** X3. Called for get or post without a data argument, [request]
    raises IndexError from [args[0]] before any call is made: the
    exception is no RequestException and is not turned into an exit. *)
Theorem request_without_data
    (E : env) (m url : string) (headers : pyval) (w : world)
    (Hmethod : lower m = "get" \/ lower m = "post") :
  request E m url headers [] w = (Raise IndexError, w).
Proof.
  unfold request, try_except, bind, lift, index0, raise.
  destruct Hmethod as [-> | ->]; reflexivity.
Qed.

Lemma request_without_data_witness :
  request renewed_env "POST" security_groups_url (PDict []) [] (start sample_cloud)
    = (Raise IndexError, start sample_cloud).
Proof.
  apply request_without_data. right. reflexivity.
Defined.

(** ** [run_cmd] *)

Lemma rstrip_split (s : string) :
  exists ws, s = rstrip s ++ ws /\ all_space ws = true.
Proof.
  induction s as [|c r (ws & Hr & Hws)]; simpl.
  - exists EmptyString. split; reflexivity.
  - destruct (rstrip r) as [|a b] eqn:Hrs.
    + simpl in Hr. subst ws. destruct (is_space c) eqn:Hc.
      * exists (String c r). simpl. rewrite Hc, Hws. split; reflexivity.
      * exists r. split; [reflexivity | exact Hws].
    + exists ws. split; [|exact Hws]. simpl. simpl in Hr. rewrite <- Hr. reflexivity.
Qed.

Lemma rstrip_clean (s : string) : last_is_space (rstrip s) = false.
Proof.
  induction s as [|c r IH]; simpl; [reflexivity|].
  destruct (rstrip r) as [|a b] eqn:Hrs.
  - destruct (is_space c) eqn:Hc; simpl; [reflexivity | exact Hc].
  - exact IH.
Qed.

(** X4. When the command's output is read and is ASCII text,
    [run_cmd] returns it without its trailing whitespace and otherwise
    unchanged: the output is the result followed by whitespace only,
    and the result does not end in whitespace.  The command is run
    once. *)
Theorem run_cmd_strips_tail
    (E : env) (cmd : string) (w : world) (out : string)
    (Hread : popen_read E w cmd = Ok out)
    (Hascii : ascii_only out = true) :
  exists res ws,
    run_cmd E cmd w = (Ret res, log w (EPopen cmd (Ok out))) /\
    out = res ++ ws /\ all_space ws = true /\ last_is_space res = false.
Proof.
  destruct (rstrip_split out) as (ws & Hout & Hws).
  exists (rstrip out), ws. split; [|split; [exact Hout|split; [exact Hws|]]].
  - unfold run_cmd, bind, call, ret. rewrite Hread. reflexivity.
  - apply rstrip_clean.
Qed.

Lemma run_cmd_strips_tail_witness :
  exists res ws,
    run_cmd renewed_env pre_command (start sample_cloud)
      = (Ret res, log (start sample_cloud) (EPopen pre_command (Ok ("done" ++ nl)))) /\
    "done" ++ nl = res ++ ws /\ all_space ws = true /\ last_is_space res = false.
Proof.
  exact (run_cmd_strips_tail renewed_env pre_command (start sample_cloud)
           ("done" ++ nl) eq_refl eq_refl).
Defined.

Example run_cmd_keeps_inner_space :
  fst (run_cmd renewed_env pre_command (start sample_cloud)) = Ret "done" /\
  rstrip ("  a b " ++ nl ++ nl) = "  a b".
Proof. split; reflexivity. Qed.

(** ** [ssl_expiration] *)





(** X5. The handler of [ssl_expiration] covers [conn.connect] only, and
    only exceptions of class Exception: an exception of [wrap_socket],
    or an interrupt during the connect, leaves the function as it was
    raised, with nothing printed and no [sys.exit]. *)
Theorem check_errors_outside_handler
    (E : env) (hostname : string) (w : world) (e : exn) :
  (wrap_socket E w hostname = Some e ->
   ssl_expiration E hostname w =
     (Raise e, log w (EWrapSocket hostname (Some e)))) /\
  (wrap_socket E w hostname = None ->
   connect E (log w (EWrapSocket hostname None)) hostname 443 = Some e ->
   is_Exception e = false ->
   ssl_expiration E hostname w =
     (Raise e,
      log (log w (EWrapSocket hostname None)) (EConnect hostname 443 (Some e)))).
Proof.
  split.
  - intros Hwrap. unfold_script. rewrite Hwrap. reflexivity.
  - intros Hwrap Hconnect Hclass. unfold_script.
    rewrite Hwrap. simpl. unfold log in Hconnect. simpl in Hconnect.
    rewrite Hconnect, Hclass. reflexivity.
Qed.

Lemma check_errors_outside_handler_witness :
  ssl_expiration bad_name_env "mydomain.tld" (start sample_cloud) =
    (Raise ValueError,
     log (start sample_cloud) (EWrapSocket "mydomain.tld" (Some ValueError))) /\
  ssl_expiration interrupted_env "mydomain.tld" (start sample_cloud) =
    (Raise KeyboardInterrupt,
     log (log (start sample_cloud) (EWrapSocket "mydomain.tld" None))
         (EConnect "mydomain.tld" 443 (Some KeyboardInterrupt))).
Proof.
  split.
  - exact (proj1 (check_errors_outside_handler bad_name_env "mydomain.tld"
                    (start sample_cloud) ValueError) eq_refl).
  - exact (proj2 (check_errors_outside_handler interrupted_env "mydomain.tld"
                    (start sample_cloud) KeyboardInterrupt) eq_refl eq_refl eq_refl).
Defined.

(** X6. Once the connect has succeeded, [ssl_expiration] reads the
    certificate and closes the connection before it looks at the date:
    whether it then returns, misses 'notAfter' or fails to parse it, the
    events it leaves are the same four, the close last, and the security
    groups are untouched. *)
Theorem connection_closed_after_connect
    (E : env) (hostname : string) (w : world)
    (Hwrap : wrap_socket E w hostname = None)
    (Hconnect : connect E (log w (EWrapSocket hostname None)) hostname 443 = None) :
  let r := ssl_expiration E hostname w in
  trace (snd r) =
    (trace w ++ [EWrapSocket hostname None; EConnect hostname 443 None;
                 EGetPeerCert; EClose])%list /\
  sgs (snd r) = sgs w.
Proof.
  unfold_script. cbv zeta. rewrite Hwrap. simpl.
  unfold log in Hconnect. simpl in Hconnect. rewrite Hconnect. simpl.
  repeat (simpl; try next_answer); simpl; rewrite <- ?app_assoc; simpl;
    split; reflexivity.
Qed.

Lemma connection_closed_after_connect_witness :
  trace (snd (ssl_expiration bad_date_env "mydomain.tld" (start sample_cloud))) =
    [EWrapSocket "mydomain.tld" None; EConnect "mydomain.tld" 443 None;
     EGetPeerCert; EClose] /\
  sgs (snd (ssl_expiration bad_date_env "mydomain.tld" (start sample_cloud)))
    = sample_cloud.
Proof.
  exact (connection_closed_after_connect bad_date_env "mydomain.tld"
           (start sample_cloud) eq_refl eq_refl).
Defined.

Example bad_date_raises_after_close :
  fst (ssl_expiration bad_date_env "mydomain.tld" (start sample_cloud))
    = Raise ValueError.
Proof. reflexivity. Qed.

(** ** The process, further *)

(** The first thing [ssl_expiration] does is to wrap a socket for the
    hostname. *)
Lemma ssl_expiration_first (E : env) (hostname : string) (w : world) :
  exists r rest,
    trace (snd (ssl_expiration E hostname w))
      = (trace w ++ EWrapSocket hostname r :: rest)%list.
Proof.
  unfold_script.
  repeat (simpl; try next_answer); simpl; rewrite <- ?app_assoc; simpl;
    eexists; eexists; reflexivity.
Qed.

(** X7. Nothing is done without a hostname argument: a run started
    without [sys.argv[1]] makes no call and leaves the security groups
    as they were, and whatever a run does begins with the TLS socket
    for the hostname of [sys.argv[1]]. *)
Theorem main_without_hostname (E : env) (c : cloud) (argv : list string) :
  (nth_error argv 1 = None ->
   trace (snd (run E c argv)) = [] /\ sgs (snd (run E c argv)) = c) /\
  (forall ev rest,
     trace (snd (run E c argv)) = ev :: rest ->
     exists hostname r,
       nth_error argv 1 = Some hostname /\ ev = EWrapSocket hostname r).
Proof.
  unfold run. rewrite main_unfold.
  destruct (nth_error argv 1) as [hostname|] eqn:Harg.
  - split; [intros H; discriminate H|].
    intros ev rest Htr. exists hostname.
    destruct (ssl_expiration_first E hostname (start c)) as (r & rest' & Hfirst).
    simpl in Hfirst.
    destruct (ssl_expiration E hostname (start c))
      as [[[[exp rem] s]|e|a] w1] eqn:Hssl; simpl in Hfirst.
    + destruct (s <? threshold).
      * destruct (execute_renewal_window E w1) as (evs & Hevs & _).
        rewrite Hevs, Hfirst in Htr. simpl in Htr.
        injection Htr as <- _. exists r. split; reflexivity.
      * simpl in Htr. rewrite Hfirst in Htr.
        injection Htr as <- _. exists r. split; reflexivity.
    + simpl in Htr. rewrite Hfirst in Htr.
      injection Htr as <- _. exists r. split; reflexivity.
    + simpl in Htr. rewrite Hfirst in Htr.
      injection Htr as <- _. exists r. split; reflexivity.
  - split; [intros _; split; reflexivity|].
    intros ev rest Htr. discriminate Htr.
Qed.

Lemma main_without_hostname_witness :
  (trace (snd (run renewed_env sample_cloud ["letsrenew.py"])) = [] /\
   sgs (snd (run renewed_env sample_cloud ["letsrenew.py"])) = sample_cloud) /\
  exists hostname r,
    nth_error argv0 1 = Some hostname /\
    EWrapSocket "mydomain.tld" None = EWrapSocket hostname r.
Proof.
  split.
  - exact (proj1 (main_without_hostname renewed_env sample_cloud ["letsrenew.py"])
             eq_refl).
  - apply (proj2 (main_without_hostname fresh_env sample_cloud argv0)
             (EWrapSocket "mydomain.tld" None)
             [EConnect "mydomain.tld" 443 None; EGetPeerCert; EClose]).
    reflexivity.
Defined.

(** The block changes the security groups through authorize and revoke
    calls only. *)
Lemma execute_renewal_frame (E : env) (w : world) :
  let r := execute_renewal E w in
  exists evs, trace (snd r) = (trace w ++ evs)%list /\
    (mutations evs = [] -> sgs (snd r) = sgs w).
Proof.
  unfold_script. cbv zeta.
  repeat (simpl; try next_answer); block_leaf;
    simpl; intros H; try discriminate H; reflexivity.
Qed.

(** A failed metadata request is the last thing the block does, and it
    comes before any change of the security groups. *)
Lemma execute_renewal_metadata_failure (E : env) (w : world) :
  let r := execute_renewal E w in
  exists evs, trace (snd r) = (trace w ++ evs)%list /\
    (forall url e,
       In (ERequestsGet url (Err e)) evs ->
       mutations evs = [] /\
       last evs EClose = ERequestsGet url (Err e) /\
       fst r = (if is_RequestException e then Exit (Some e) else Raise e)).
Proof.
  unfold_script. cbv zeta.
  repeat (simpl; try next_answer); block_leaf;
    simpl; intros url x H;
    repeat match type of H with
           | _ \/ _ => destruct H as [H|H]
           | False => contradiction
           | _ = _ => first [discriminate H | injection H as; subst]
           end;
    repeat split;
    match goal with
    | Hc : is_RequestException _ = _ |- _ => rewrite Hc; reflexivity
    end.
Qed.

(** X8. When a request to the metadata service fails, the process stops
    there, before any authorize or revoke call and with the security
    groups untouched: through [sys.exit(e)] for a RequestException, and
    with the exception uncaught otherwise.  The exit status is not 0,
    and it is 1 for an exception of class Exception. *)
Theorem metadata_failure_stops_before_mutation
    (E : env) (c : cloud) (argv : list string) (url : string) (e : exn)
    (Hfail : In (ERequestsGet url (Err e)) (trace (snd (run E c argv)))) :
  mutations (trace (snd (run E c argv))) = [] /\
  sgs (snd (run E c argv)) = c /\
  last (trace (snd (run E c argv))) EClose = ERequestsGet url (Err e) /\
  fst (run E c argv) = (if is_RequestException e then Exit (Some e) else Raise e) /\
  exit_status (fst (run E c argv)) <> 0 /\
  (is_Exception e = true -> exit_status (fst (run E c argv)) = 1).
Proof.
  destruct (run_cases E c argv) as [(Htls & _ & _) | Hrenew].
  - exfalso. rewrite forallb_forall in Htls.
    specialize (Htls _ Hfail). discriminate Htls.
  - destruct Hrenew as (h & exp & rem & s & w1 & _ & _ & _ & Htls & Hc & Hrun).
    rewrite Hrun in *. clear Hrun.
    destruct (execute_renewal_metadata_failure E w1) as (evs & Htr & Hev).
    destruct (execute_renewal_frame E w1) as (evs' & Htr' & Hframe).
    rewrite Htr in Htr'. apply app_inv_head in Htr'. subst evs'.
    rewrite Htr in Hfail. apply in_app_or in Hfail.
    destruct Hfail as [Hin|Hin].
    + exfalso. rewrite forallb_forall in Htls.
      specialize (Htls _ Hin). discriminate Htls.
    + destruct (Hev _ _ Hin) as (Hmut & Hlast & Hout).
      rewrite Htr, mutations_app, (tls_mutations _ Htls), Hmut, (Hframe Hmut), Hout.
      split; [reflexivity|]. split; [exact Hc|]. split.
      * destruct evs as [|ev evs]; [contradiction|].
        rewrite last_app_nonempty by discriminate. exact Hlast.
      * split; [reflexivity|].
        destruct (is_RequestException e).
        -- simpl. split; [discriminate | intros _; reflexivity].
        -- exact (uncaught_status _ _ eq_refl).
Qed.

Lemma metadata_failure_stops_before_mutation_witness :
  mutations (trace (snd (run offline_env sample_cloud argv0))) = [] /\
  sgs (snd (run offline_env sample_cloud argv0)) = sample_cloud /\
  last (trace (snd (run offline_env sample_cloud argv0))) EClose
    = ERequestsGet identity_document_url (Err (RequestException "Connection refused")) /\
  fst (run offline_env sample_cloud argv0)
    = (if is_RequestException (RequestException "Connection refused")
       then Exit (Some (RequestException "Connection refused"))
       else Raise (RequestException "Connection refused")) /\
  exit_status (fst (run offline_env sample_cloud argv0)) <> 0 /\
  (is_Exception (RequestException "Connection refused") = true ->
   exit_status (fst (run offline_env sample_cloud argv0)) = 1).
Proof.
  apply (metadata_failure_stops_before_mutation offline_env sample_cloud argv0
           identity_document_url (RequestException "Connection refused")).
  vm_compute. repeat (first [left; reflexivity | right]).
Defined.

(** The calls of the block to the EC2 side, and where the arguments
    of the add come from. *)
Lemma execute_renewal_authorize_flow (E : env) (w : world) :
  let r := execute_renewal E w in
  exists evs, trace (snd r) = (trace w ++ evs)%list /\
    (forall ec2 group perms a,
       In (EAuthorizeIngress ec2 group perms a) evs ->
       exists resp ec2' g rest tail,
         filter is_cloud_call evs =
           ([EBotoClient "ec2" (Ok ec2);
             EBotoClient "ec2" (Ok ec2');
             EDescribeSecurityGroups ec2' (text resp) (Ok (g :: rest));
             EAuthorizeIngress ec2 (GroupId g) temp_rule a] ++ tail)%list /\
         group = GroupId g /\
         perms = temp_rule /\
         In (ERequestsGet security_groups_url (Ok resp)) evs /\
         (tail = [] \/ exists r, tail = [ERevokeIngress ec2 (GroupId g) temp_rule r])).
Proof.
  unfold_script. cbv zeta.
  repeat (simpl; try next_answer); block_leaf;
    simpl; intros ec2 group perms x H;
    repeat match type of H with
           | _ \/ _ => destruct H as [H|H]
           | False => contradiction
           | _ = _ => first [discriminate H | injection H as; subst]
           end;
    eexists; eexists; eexists; eexists; eexists;
    (split; [simpl; reflexivity|]);
    (split; [reflexivity|]);
    (split; [reflexivity|]);
    (split; [repeat (first [left; reflexivity | right])|]);
    first [left; reflexivity | right; eexists; reflexivity].
Qed.

(** X10. A run that reaches the add has made these calls to the EC2
    side, in this order: the client of the main block is built, a
    second client is built by [get_security_group_by_name], the
    describe goes through the second client for the name that is the
    whole text of the security-groups metadata answer, and the add goes
    through the first client, on the GroupId of the first group of the
    describe answer, with the configured temporary rule.  The only call
    that can follow is the remove, through the same client, on the same
    group and rule. *)
Theorem authorize_arguments
    (E : env) (c : cloud) (argv : list string)
    (ec2 : client) (group : string) (perms : list ip_permission) (a : option exn)
    (Hcall : In (EAuthorizeIngress ec2 group perms a) (trace (snd (run E c argv)))) :
  exists resp ec2' g rest tail,
    filter is_cloud_call (trace (snd (run E c argv))) =
      ([EBotoClient "ec2" (Ok ec2);
        EBotoClient "ec2" (Ok ec2');
        EDescribeSecurityGroups ec2' (text resp) (Ok (g :: rest));
        EAuthorizeIngress ec2 (GroupId g) temp_rule a] ++ tail)%list /\
    group = GroupId g /\
    perms = temp_rule /\
    In (ERequestsGet security_groups_url (Ok resp)) (trace (snd (run E c argv))) /\
    (tail = [] \/ exists r, tail = [ERevokeIngress ec2 (GroupId g) temp_rule r]).
Proof.
  destruct (run_cases E c argv) as [(Htls & _ & _) | Hrenew].
  - exfalso. rewrite forallb_forall in Htls.
    specialize (Htls _ Hcall). discriminate Htls.
  - destruct Hrenew as (h & exp & rem & s & w1 & _ & _ & _ & Htls & _ & Hrun).
    rewrite Hrun in *. clear Hrun.
    destruct (execute_renewal_authorize_flow E w1) as (evs & Htr & Hev).
    destruct (tls_events _ Htls) as (_ & _ & Hcloud & _ & _).
    unfold count in Hcloud. apply length_zero_iff_nil in Hcloud.
    rewrite Htr in *. apply in_app_or in Hcall.
    destruct Hcall as [Hin|Hin].
    + exfalso. rewrite forallb_forall in Htls.
      specialize (Htls _ Hin). discriminate Htls.
    + destruct (Hev _ _ _ _ Hin)
        as (resp & ec2' & g & rest & tail & H1 & H2 & H3 & H4 & H5).
      exists resp, ec2', g, rest, tail.
      rewrite filter_app, Hcloud. simpl app at 1.
      repeat split; try assumption. apply in_or_app. right. exact H4.
Qed.

Lemma authorize_arguments_witness :
  exists resp ec2' g rest tail,
    filter is_cloud_call (trace (snd (run renewed_env sample_cloud argv0))) =
      ([EBotoClient "ec2" (Ok ec2_0);
        EBotoClient "ec2" (Ok ec2');
        EDescribeSecurityGroups ec2' (text resp) (Ok (g :: rest));
        EAuthorizeIngress ec2_0 (GroupId g) temp_rule None] ++ tail)%list /\
    "sg-0a1b" = GroupId g /\
    temp_rule = temp_rule /\
    In (ERequestsGet security_groups_url (Ok resp))
       (trace (snd (run renewed_env sample_cloud argv0))) /\
    (tail = [] \/ exists r, tail = [ERevokeIngress ec2_0 (GroupId g) temp_rule r]).
Proof.
  apply (authorize_arguments renewed_env sample_cloud argv0 ec2_0 "sg-0a1b"
           temp_rule None).
  vm_compute. repeat (first [left; reflexivity | right]).
Defined.

Example two_clients_built :
  filter is_cloud_call (trace (snd (run renewed_env sample_cloud argv0))) =
    [EBotoClient "ec2" (Ok {| client_id := 0 |});
     EBotoClient "ec2" (Ok {| client_id := 1 |});
     EDescribeSecurityGroups {| client_id := 1 |} "web" (Ok [web_group [https_rule]]);
     EAuthorizeIngress {| client_id := 0 |} "sg-0a1b" temp_rule None;
     ERevokeIngress {| client_id := 0 |} "sg-0a1b" temp_rule None].
Proof. vm_compute. reflexivity. Qed.




(** ** The redirect handler, further *)

(** X12. The handler raises TypeError when the event or its 'headers'
    value is not a dict (a null headers field, for one), and
    AttributeError when the 'Host' value is not a string. *)
Theorem lambda_handler_type_errors (event context : pyval) :
  ((forall d, event <> PDict d) ->
   Lambda302.lambda_handler event context = Err TypeError) /\
  (forall hs,
     getitem event "headers" = Ok hs -> (forall d, hs <> PDict d) ->
     Lambda302.lambda_handler event context = Err TypeError) /\
  (forall hs v,
     getitem event "headers" = Ok hs -> getitem hs "Host" = Ok v ->
     (forall s, v <> PStr s) ->
     Lambda302.lambda_handler event context = Err AttributeError).
Proof.
  unfold Lambda302.lambda_handler. split; [|split].
  - intros Hev. destruct event; try reflexivity. elim (Hev d). reflexivity.
  - intros hs Hhs Hnd. rewrite Hhs. simpl.
    destruct hs; try reflexivity. elim (Hnd d). reflexivity.
  - intros hs v Hhs Hv Hns. rewrite Hhs. simpl. rewrite Hv. simpl.
    destruct v; try reflexivity. elim (Hns s). reflexivity.
Qed.

Lemma lambda_handler_type_errors_witness :
  Lambda302.lambda_handler PNone PNone = Err TypeError /\
  Lambda302.lambda_handler (PDict [("headers", PNone)]) PNone = Err TypeError /\
  Lambda302.lambda_handler
    (PDict [("headers", PDict [("Host", PList [PStr "a.example.com"])])]) PNone
    = Err AttributeError.
Proof.
  split; [|split].
  - apply (proj1 (lambda_handler_type_errors PNone PNone)). discriminate.
  - apply (proj1 (proj2 (lambda_handler_type_errors (PDict [("headers", PNone)]) PNone))
             PNone); [reflexivity | discriminate].
  - apply (proj2 (proj2 (lambda_handler_type_errors
                           (PDict [("headers", PDict [("Host", PList [PStr "a.example.com"])])])
                           PNone))
             (PDict [("Host", PList [PStr "a.example.com"])])
             (PList [PStr "a.example.com"])); [reflexivity | reflexivity | discriminate].
Defined.

(** X13. The handler reads nothing but [event['headers']['Host']]: two
    calls whose events agree there give the same result, whatever else
    the events hold and whatever the contexts are. *)
Theorem lambda_handler_reads_host_only (event event' context context' : pyval)
    (Hsame : rbind (getitem event "headers") (fun hs => getitem hs "Host")
             = rbind (getitem event' "headers") (fun hs => getitem hs "Host")) :
  Lambda302.lambda_handler event context = Lambda302.lambda_handler event' context'.
Proof.
  unfold Lambda302.lambda_handler.
  destruct (getitem event "headers") as [hs|e];
    destruct (getitem event' "headers") as [hs'|e']; simpl in *.
  - rewrite Hsame. reflexivity.
  - rewrite Hsame. reflexivity.
  - rewrite <- Hsame. reflexivity.
  - congruence.
Qed.

Lemma lambda_handler_reads_host_only_witness :
  Lambda302.lambda_handler
    (PDict [("path", PStr "/a"); ("headers", PDict [("Accept", PStr "*/*");
                                                   ("Host", PStr "docs.example.com")])])
    (PDict [("aws_request_id", PStr "1")])
  = Lambda302.lambda_handler (Lambda302.host_event "docs.example.com") PNone.
Proof.
  apply lambda_handler_reads_host_only. reflexivity.
Defined.

(** X14. An empty Host, or one that begins with a dot, redirects to the
    root of the bucket: the resource part of the Location is empty. *)
Theorem lambda_handler_empty_resource (event context hs : pyval) (h : string)
    (Hhs : getitem event "headers" = Ok hs)
    (Hh : getitem hs "Host" = Ok (PStr h))
    (Hdot : h = "" \/ exists rest, h = String "." rest) :
  Lambda302.lambda_handler event context =
    Ok (PDict [ ("statusCode", PInt 302);
                ("headers",
                  PDict [("Location", PStr "https://my-bucket-name.s3.amazonaws.com/")]);
                ("body", PStr "{}") ]).
Proof.
  unfold Lambda302.lambda_handler. rewrite Hhs. simpl. rewrite Hh.
  destruct Hdot as [-> | (rest & ->)]; reflexivity.
Qed.

Lemma lambda_handler_empty_resource_witness :
  Lambda302.lambda_handler (Lambda302.host_event ".example.com") PNone =
    Ok (PDict [ ("statusCode", PInt 302);
                ("headers",
                  PDict [("Location", PStr "https://my-bucket-name.s3.amazonaws.com/")]);
                ("body", PStr "{}") ]).
Proof.
  apply (lambda_handler_empty_resource (Lambda302.host_event ".example.com") PNone
           (PDict [("Host", PStr ".example.com")]) ".example.com");
    [reflexivity | reflexivity | right; exists "example.com"; reflexivity].
Defined.

(** ** The emoji download loop *)

Lemma split_no_sep (sep : ascii) (s : string) :
  has_char sep s = false -> split sep s = [s].
Proof.
  induction s as [|c r IH]; simpl; [reflexivity|].
  intros H. apply orb_false_iff in H. destruct H as [Hc Hr].
  rewrite Hc, (IH Hr). reflexivity.
Qed.

Lemma split_has_sep (sep : ascii) (s : string) :
  has_char sep s = true -> exists h x t, split sep s = h :: x :: t.
Proof.
  induction s as [|c r IH]; simpl; [discriminate|].
  destruct (Ascii.eqb c sep) eqn:Hc; simpl.
  - intros _. destruct (split sep r) as [|x t] eqn:Hs.
    + destruct r; simpl in Hs; [discriminate Hs|].
      destruct (Ascii.eqb a sep); [discriminate Hs|].
      destruct (split sep r); discriminate Hs.
    + exists "", x, t. reflexivity.
  - intros Hr. destruct (IH Hr) as (h & x & t & ->). exists (String c h), x, t. reflexivity.
Qed.

(** The last piece of [split sep s] is the end of [s] after its last
    [sep], or all of [s] when [sep] does not occur. *)
Lemma split_last (sep : ascii) (s : string) :
  exists pre,
    s = pre ++ last (split sep s) "" /\
    has_char sep (last (split sep s) "") = false /\
    (has_char sep s = true -> exists p, pre = p ++ String sep "") /\
    (has_char sep s = false -> pre = "").
Proof.
  induction s as [|c r (pre & Hr & Hl & Hyes & Hno)].
  - exists "". simpl. repeat split; intros; discriminate.
  - destruct (has_char sep r) eqn:Hsep.
    + destruct (split_has_sep _ _ Hsep) as (h & x & t & Hs).
      destruct (Hyes eq_refl) as (p & ->).
      exists (String c (p ++ String sep "")).
      assert (Hlast : last (split sep (String c r)) "" = last (split sep r) "").
      { simpl. rewrite Hs. destruct (Ascii.eqb c sep); reflexivity. }
      rewrite Hlast. simpl. rewrite <- Hr, Hsep, orb_true_r.
      repeat split; try assumption.
      * intros _. exists (String c p). reflexivity.
      * intros H. discriminate H.
    + rewrite (split_no_sep _ _ Hsep) in *. simpl in Hr, Hl.
      simpl. rewrite (split_no_sep _ _ Hsep).
      destruct (Ascii.eqb c sep) eqn:Hc; simpl.
      * apply Ascii.eqb_eq in Hc. subst c. exists (String sep "").
        repeat split; try assumption.
        -- intros _. exists "". reflexivity.
        -- intros H. discriminate H.
      * exists "". simpl. rewrite Hc, Hsep. repeat split; intros; discriminate.
Qed.

Lemma saved_from_later (items : dict) (evs pre : list SlackEmoji.event)
    (item : string * pyval) (path : string) :
  SlackEmoji.saved_from items evs path ->
  SlackEmoji.saved_from (item :: items) (pre ++ evs) path.
Proof.
  intros (emoji & image & Hin & Ha & Hf & Hp). exists emoji, image.
  repeat split; try assumption; [right; exact Hin | apply in_or_app; right; exact Hf].
Qed.

Lemma wanted_later (emoji : string) (image : pyval) (rest : dict) (l : list string) :
  Forall (fun u => SlackEmoji.is_alias u = false /\ exists e, In (e, PStr u) rest) l ->
  Forall (fun u => SlackEmoji.is_alias u = false /\
                   exists e, In (e, PStr u) ((emoji, image) :: rest)) l.
Proof.
  intros H. eapply Forall_impl; [|exact H].
  intros u (Hu & e & Hin). split; [exact Hu|]. exists e. right. exact Hin.
Qed.

#[local] Arguments SlackEmoji.is_alias : simpl never.
#[local] Arguments SlackEmoji.extension : simpl never.

(** The loop, from any trace: what it adds to it. *)
Lemma loop_events (E : SlackEmoji.env) (items : dict) :
  forall tr, exists evs,
    snd (SlackEmoji.download_images E items tr) = (tr ++ evs)%list /\
    Forall (fun u => SlackEmoji.is_alias u = false /\ exists emoji, In (emoji, PStr u) items)
           (SlackEmoji.fetched evs) /\
    (fst (SlackEmoji.download_images E items tr) = None ->
     SlackEmoji.fetched evs = SlackEmoji.wanted items /\
     SlackEmoji.shut evs = SlackEmoji.wanted items) /\
    (forall path r, In (SlackEmoji.Save path r) evs ->
                    SlackEmoji.saved_from items evs path).
Proof.
  induction items as [|[emoji image] rest IH]; intros tr.
  - exists []. simpl. rewrite app_nil_r. repeat split; try constructor.
    intros path r [].
  - simpl. unfold SlackEmoji.turn.
    destruct image as [| |s| |];
      try (exists []; simpl; rewrite app_nil_r; repeat split;
           [constructor | discriminate | discriminate | intros path r []]).
    destruct (SlackEmoji.is_alias s) eqn:Halias.
    + destruct (IH tr) as (evs & Htr & Hf & Hdone & Hsave).
      exists evs. simpl. rewrite ?Halias. split; [exact Htr|].
      split; [apply wanted_later; exact Hf|]. split; [exact Hdone|].
      intros path r Hin. apply (saved_from_later rest evs [] _ path). eauto.
    + destruct (SlackEmoji.get E tr s) as [status|x] eqn:Hget.
      2:{ exists [SlackEmoji.Fetch s (Err x)]. simpl. split; [reflexivity|].
          split; [|split; [discriminate|]].
          - constructor; [|constructor]. split; [exact Halias|]. exists emoji. left. reflexivity.
          - intros path r [Heq|[]]. discriminate Heq. }
      cbv zeta. destruct (status =? 200) eqn:Hstatus.
      * apply Z.eqb_eq in Hstatus. subst status.
        destruct (SlackEmoji.save E (tr ++ [SlackEmoji.Fetch s (Ok 200)])
                    ("slack_emoji/images/" ++ emoji ++ "." ++ SlackEmoji.extension s))
          as [x|] eqn:Hsave.
        -- eexists [SlackEmoji.Fetch s (Ok 200); SlackEmoji.Save _ (Some x)].
           simpl. rewrite <- app_assoc. split; [reflexivity|].
           split; [|split; [discriminate|]].
           ++ constructor; [|constructor]. split; [exact Halias|]. exists emoji. left. reflexivity.
           ++ intros path r [Heq|[Heq|[]]]; [discriminate Heq|]. injection Heq as <- _.
              exists emoji, s. repeat split; [left; reflexivity | exact Halias | left; reflexivity].
        -- match goal with
           | |- context [SlackEmoji.download_images E rest (?a ++ ?b)%list] =>
               set (tr' := (a ++ b)%list) in *;
               destruct (IH tr') as (evs & Htr & Hf & Hdone & Hsaved);
               exists (SlackEmoji.Fetch s (Ok 200) :: b ++ evs)%list
           end.
           rewrite Htr. simpl.
           split; [subst tr'; rewrite <- !app_assoc; reflexivity|]. rewrite ?Halias.
           split; [constructor;
                   [split; [exact Halias|]; exists emoji; left; reflexivity
                   | apply wanted_later; exact Hf]|].
           split.
           ++ intros Hnone. destruct (Hdone Hnone) as [-> ->]. split; reflexivity.
           ++ intros path r [Heq|[Heq|[Heq|[Heq|Hin]]]]; try discriminate Heq.
              ** injection Heq as <- _. exists emoji, s.
                 repeat split; [left; reflexivity | exact Halias | left; reflexivity].
              ** apply (saved_from_later rest evs
                          [SlackEmoji.Fetch s (Ok 200); SlackEmoji.Save _ None;
                           SlackEmoji.Say _; SlackEmoji.Shut s] _ path).
                 eauto.
      * match goal with
        | |- context [SlackEmoji.download_images E rest (?a ++ ?b)%list] =>
            set (tr' := (a ++ b)%list) in *;
            destruct (IH tr') as (evs & Htr & Hf & Hdone & Hsaved);
            exists (SlackEmoji.Fetch s (Ok status) :: b ++ evs)%list
        end.
        rewrite Htr. simpl.
        split; [subst tr'; rewrite <- !app_assoc; reflexivity|]. rewrite ?Halias.
        split; [constructor;
                [split; [exact Halias|]; exists emoji; left; reflexivity
                | apply wanted_later; exact Hf]|].
        split.
        -- intros Hnone. destruct (Hdone Hnone) as [-> ->]. split; reflexivity.
        -- intros path r [Heq|[Heq|[Heq|Hin]]]; try discriminate Heq.
           apply (saved_from_later rest evs
                    [SlackEmoji.Fetch s (Ok status); SlackEmoji.Say _; SlackEmoji.Shut s]
                    _ path).
           eauto.
Qed.

(** X15. The loop never asks for an alias: every address it fetches is
    the image of a listing entry that does not begin with [alias:].  When
    the loop runs to its end, it has fetched exactly the images that are
    no aliases, once each in the order of the listing, and closed every
    one of the responses. *)
Theorem aliases_never_fetched (E : SlackEmoji.env) (items : dict) :
  let r := SlackEmoji.download_images E items [] in
  (forall u, In u (SlackEmoji.fetched (snd r)) ->
             SlackEmoji.is_alias u = false /\ exists emoji, In (emoji, PStr u) items) /\
  (fst r = None ->
   SlackEmoji.fetched (snd r) = SlackEmoji.wanted items /\
   SlackEmoji.shut (snd r) = SlackEmoji.wanted items).
Proof.
  cbv zeta. destruct (loop_events E items []) as (evs & Htr & Hf & Hdone & _).
  rewrite Htr. simpl. split; [|exact Hdone].
  intros u Hin. rewrite Forall_forall in Hf. exact (Hf u Hin).
Qed.

Lemma aliases_never_fetched_witness :
  SlackEmoji.fetched (snd (SlackEmoji.download_images SlackEmoji.sample_env
                             SlackEmoji.sample_listing []))
    = ["https://emoji.example/a/party.gif"; "https://emoji.example/b/old.v2.png"] /\
  SlackEmoji.shut (snd (SlackEmoji.download_images SlackEmoji.sample_env
                          SlackEmoji.sample_listing []))
    = ["https://emoji.example/a/party.gif"; "https://emoji.example/b/old.v2.png"].
Proof.
  exact (proj2 (aliases_never_fetched SlackEmoji.sample_env SlackEmoji.sample_listing)
           eq_refl).
Defined.

(** X16. Every file the loop writes belongs to a listing entry that is
    no alias and whose image was answered with status 200; its path is
    'slack_emoji/images/', the entry's name, a dot, and the end of the
    image address after its last dot (all of the address when it has no
    dot), which itself holds no dot. *)
Theorem saved_file_names
    (E : SlackEmoji.env) (items : dict) (path : string) (r : option exn)
    (Hsaved : In (SlackEmoji.Save path r)
                 (snd (SlackEmoji.download_images E items []))) :
  exists emoji image pre,
    In (emoji, PStr image) items /\
    SlackEmoji.is_alias image = false /\
    In (SlackEmoji.Fetch image (Ok 200)) (snd (SlackEmoji.download_images E items [])) /\
    path = "slack_emoji/images/" ++ emoji ++ "." ++ SlackEmoji.extension image /\
    image = pre ++ SlackEmoji.extension image /\
    has_char "." (SlackEmoji.extension image) = false /\
    (has_char "." image = true -> exists p, pre = p ++ ".") /\
    (has_char "." image = false -> pre = "").
Proof.
  destruct (loop_events E items []) as (evs & Htr & _ & _ & Hs).
  rewrite Htr in *. simpl in *.
  destruct (Hs _ _ Hsaved) as (emoji & image & Hin & Ha & Hf & Hp).
  destruct (split_last "." image) as (pre & Hpre & Hext & Hyes & Hno).
  exists emoji, image, pre. repeat split; assumption.
Qed.

Lemma saved_file_names_witness :
  exists emoji image pre,
    In (emoji, PStr image) SlackEmoji.sample_listing /\
    SlackEmoji.is_alias image = false /\
    In (SlackEmoji.Fetch image (Ok 200))
       (snd (SlackEmoji.download_images SlackEmoji.sample_env
               SlackEmoji.sample_listing [])) /\
    "slack_emoji/images/party.gif"
      = "slack_emoji/images/" ++ emoji ++ "." ++ SlackEmoji.extension image /\
    image = pre ++ SlackEmoji.extension image /\
    has_char "." (SlackEmoji.extension image) = false /\
    (has_char "." image = true -> exists p, pre = p ++ ".") /\
    (has_char "." image = false -> pre = "").
Proof.
  apply (saved_file_names SlackEmoji.sample_env SlackEmoji.sample_listing
           "slack_emoji/images/party.gif" None).
  vm_compute. right. left. reflexivity.
Defined.

Example sample_download_trace :
  SlackEmoji.download_images SlackEmoji.sample_env SlackEmoji.sample_listing [] =
    (None,
     [SlackEmoji.Fetch "https://emoji.example/a/party.gif" (Ok 200);
      SlackEmoji.Save "slack_emoji/images/party.gif" None;
      SlackEmoji.Say "Image sucessfully Downloaded:  party.gif";
      SlackEmoji.Shut "https://emoji.example/a/party.gif";
      SlackEmoji.Fetch "https://emoji.example/b/old.v2.png" (Ok 404);
      SlackEmoji.Say "Image Couldn't be retreived:  old.png";
      SlackEmoji.Shut "https://emoji.example/b/old.v2.png"]).
Proof. reflexivity. Qed.
